(** * csvlinter: the validation engine, embedded and verified

    The development follows the packages of the repository and the
    libraries they are built on:
    - [Utf8], [Csv], [Strconv], [Jsonschema] and [Filepath] model what the
      code uses of [unicode/utf8], [encoding/csv], [strconv], the JSON
      Schema library and [path/filepath];
    - [FileParser] is package [parser] as it reads a file by path
      (src/internal/parser/parser.go);
    - [Parser] is package [parser] as it reads an [io.Reader] into a buffer;
    - [Schema] is the row validator and [Resolve] the schema resolver of
      package [schema];
    - [Validator] is the engine, [Cmd] the input selection of the command.

    Go strings and byte slices are sequences of bytes: a [[]byte] is a
    [list byte], a [string] a [string]. The lemmas on the csv reader stand
    right after it, because the parsers need them; all other properties
    follow the definitions. *)

From Stdlib Require Import ZArith NArith List String Ascii Bool Lia.
From Stdlib Require Import Strings.Byte.
From Stdlib Require Import Sorting.Sorted.
From stdpp Require Import base option list gmap strings.

Open Scope string_scope.
Open Scope list_scope.

Abbreviation bytes := (list byte).

(** ** Bytes, text and numbers *)

Definition b2n (b : byte) : N := Byte.to_N b.

#[global] Instance byte_eq_dec : EqDecision byte := Byte.byte_eq_dec.

Definition bytes_of (s : string) : bytes := list_byte_of_string s.
Definition text_of (b : bytes) : string := string_of_list_byte b.

Definition LF : byte := "010"%byte.
Definition CR : byte := "013"%byte.
Definition QUOTE : byte := "034"%byte.

(** Decimal rendering of a non-negative int, as [%d] prints it. *)
Fixpoint digits (fuel : nat) (n : N) (acc : string) : string :=
  match fuel with
  | O => acc
  | S f =>
      let d := ascii_of_N (48 + n mod 10) in
      if (n <? 10)%N then String d acc else digits f (n / 10)%N (String d acc)
  end.

Definition itoa (n : nat) : string := digits (S n) (N.of_nat n) "".

(** ** Go errors

    An error is what the code can tell apart: the sentinel [io.EOF], the
    errors of [encoding/csv], and errors made by [fmt.Errorf], whose only
    content is their message. *)

Inductive csvErr := ErrBareQuote | ErrQuote.

Inductive error :=
| EOF
| ErrInvalidDelim
| ParseError (StartLine Line Column : nat) (Err : csvErr)
| Errorf (msg : string).

Definition dq : string := String (ascii_of_byte QUOTE) "".

Definition csvErr_text (e : csvErr) : string :=
  match e with
  | ErrBareQuote => "bare " ++ dq ++ " in non-quoted-field"
  | ErrQuote => "extraneous or missing " ++ dq ++ " in quoted-field"
  end.

(** The [Error()] method. *)
Definition errorText (e : error) : string :=
  match e with
  | EOF => "EOF"
  | ErrInvalidDelim => "csv: invalid field or comment delimiter"
  | ParseError sl l c k =>
      if Nat.eqb sl l
      then "parse error on line " ++ itoa l ++ ", column " ++ itoa c ++ ": " ++ csvErr_text k
      else "record on line " ++ itoa sl ++ "; parse error on line " ++ itoa l
           ++ ", column " ++ itoa c ++ ": " ++ csvErr_text k
  | Errorf msg => msg
  end%string.

(** ** unicode/utf8: [Valid]

    The table [first] gives, for a leading byte, the size of the sequence
    (low bits) and the index of the range its second byte must lie in (high
    bits); [xx] marks an illegal leading byte. [Valid] is the library's
    main loop (its eight-bytes-at-a-time prefix scan only skips ASCII). *)

Module Utf8.

Local Open Scope N_scope.

Definition RuneSelf : N := 0x80.
Definition locb : N := 0x80.
Definition hicb : N := 0xBF.

Definition xx : N := 0xF1.
Definition as_ : N := 0xF0.
Definition s1 : N := 0x02.
Definition s2 : N := 0x13.
Definition s3 : N := 0x03.
Definition s4 : N := 0x23.
Definition s5 : N := 0x34.
Definition s6 : N := 0x04.
Definition s7 : N := 0x44.

Definition first (b : N) : N :=
  if b <? 0x80 then as_
  else if b <? 0xC2 then xx
  else if b <? 0xE0 then s1
  else if b =? 0xE0 then s2
  else if b <? 0xED then s3
  else if b =? 0xED then s4
  else if b <? 0xF0 then s3
  else if b =? 0xF0 then s5
  else if b <? 0xF4 then s6
  else if b =? 0xF4 then s7
  else xx.

Definition acceptRanges (i : N) : N * N :=
  match i with
  | 0 => (locb, hicb)
  | 1 => (0xA0, hicb)
  | 2 => (locb, 0x9F)
  | 3 => (0x90, hicb)
  | 4 => (locb, 0x8F)
  | _ => (1, 0)
  end%N.

Definition inRange (lo hi : N) (c : byte) : bool :=
  (lo <=? b2n c) && (b2n c <=? hi).

Fixpoint Valid (p : bytes) : bool :=
  match p with
  | [] => true
  | pi :: rest =>
      if b2n pi <? RuneSelf then Valid rest
      else
        let x := first (b2n pi) in
        if x =? xx then false
        else
          let size := N.land x 7 in
          let (lo, hi) := acceptRanges (N.shiftr x 4) in
          match rest with
          | [] => false
          | c1 :: r1 =>
              if negb (inRange lo hi c1) then false
              else if size =? 2 then Valid r1
              else
                match r1 with
                | [] => false
                | c2 :: r2 =>
                    if negb (inRange locb hicb c2) then false
                    else if size =? 3 then Valid r2
                    else
                      match r2 with
                      | [] => false
                      | c3 :: r3 =>
                          if negb (inRange locb hicb c3) then false
                          else Valid r3
                      end
                end
          end
  end%N.

Definition byte_of (n : N) : byte :=
  match Byte.of_N (n mod 256) with
  | Some b => b
  | None => Byte.x00
  end.

(** [EncodeRune]: the UTF-8 encoding of a rune; surrogates and values
    past U+10FFFF encode as U+FFFD. *)
Definition EncodeRune (r : N) : bytes :=
  let three (r : N) :=
    [byte_of (N.lor 0xE0 (N.shiftr r 12));
     byte_of (N.lor 0x80 (N.land (N.shiftr r 6) 0x3F));
     byte_of (N.lor 0x80 (N.land r 0x3F))] in
  if r <=? 0x7F then [byte_of r]
  else if r <=? 0x7FF then
    [byte_of (N.lor 0xC0 (N.shiftr r 6)); byte_of (N.lor 0x80 (N.land r 0x3F))]
  else if (0x10FFFF <? r) || ((0xD800 <=? r) && (r <=? 0xDFFF)) then three 0xFFFD
  else if r <=? 0xFFFF then three r
  else
    [byte_of (N.lor 0xF0 (N.shiftr r 18));
     byte_of (N.lor 0x80 (N.land (N.shiftr r 12) 0x3F));
     byte_of (N.lor 0x80 (N.land (N.shiftr r 6) 0x3F));
     byte_of (N.lor 0x80 (N.land r 0x3F))].

End Utf8.

(** Results of fallible calls: Go's [(value, error)] with exactly one set. *)
Inductive res (A : Type) :=
| Ok (a : A)
| Err (e : error).
Arguments Ok {A} a.
Arguments Err {A} e.

(** ** encoding/csv: [Reader]

    The reader as the parser configures it: [Comma] set by the caller,
    [FieldsPerRecord = -1], no comment character, no lazy quotes, no
    trimming. The underlying stream is the list of bytes not yet read. *)

Module Csv.

Local Open Scope nat_scope.

Record Reader := mkReader { Comma : N; input : bytes; numLine : nat }.

Definition NewReader (data : bytes) : Reader :=
  {| Comma := 44; input := data; numLine := 0 |}.

Definition setComma (c : N) (r : Reader) : Reader :=
  {| Comma := c; input := input r; numLine := numLine r |}.

Definition ValidRune (r : N) : bool :=
  ((r <? 0xD800) || ((0xDFFF <? r) && (r <=? 0x10FFFF)))%N.

Definition validDelim (r : N) : bool :=
  (negb (r =? 0) && negb (r =? 34) && negb (r =? 13) && negb (r =? 10)
   && ValidRune r && negb (r =? 0xFFFD))%N.

Fixpoint hasPrefix (p s : bytes) : bool :=
  match p, s with
  | [], _ => true
  | a :: p', b :: s' => Byte.eqb a b && hasPrefix p' s'
  | _ :: _, [] => false
  end.

Fixpoint Index (sep s : bytes) : option nat :=
  if hasPrefix sep s then Some 0
  else match s with
       | [] => None
       | _ :: s' => S <$> Index sep s'
       end.

Definition IndexByte (s : bytes) (c : byte) : option nat := Index [c] s.

(** [bytes.IndexRune] for a rune that passed [validDelim]. *)
Definition IndexRune (s : bytes) (r : N) : option nat := Index (Utf8.EncodeRune r) s.

Definition lengthNL (b : bytes) : nat :=
  match last b with
  | Some c => if Byte.eqb c LF then 1 else 0
  | None => 0
  end.

(** [bufio.Reader.ReadSlice] up to and including the first newline:
    the slice, what is left, and whether the newline was found. *)
Fixpoint ReadSlice (s : bytes) : bytes * bytes * bool :=
  match s with
  | [] => ([], [], false)
  | b :: s' =>
      if Byte.eqb b LF then ([b], s', true)
      else let '(l, rest, found) := ReadSlice s' in (b :: l, rest, found)
  end.

Definition dropLastCR (l : bytes) : bytes :=
  match last l with
  | Some c => if Byte.eqb c CR then removelast l else l
  | None => l
  end.

Definition normalizeCRLF (l : bytes) : bytes :=
  let n := length l in
  if (2 <=? n) && bool_decide (drop (n - 2) l = [CR; LF])
  then take (n - 2) l ++ [LF]
  else l.

(** [readLine]: the next line, whether the read reported [io.EOF], and the
    reader after it. A final line without newline loses a trailing
    carriage return; a line ending in CR LF ends in LF. *)
Definition readLine (r : Reader) : bytes * bool * Reader :=
  let '(l, rest, found) := ReadSlice (input r) in
  let eof := negb found in
  let '(l, eof) :=
    if (0 <? length l) && eof then (dropLastCR l, false) else (l, eof) in
  (normalizeCRLF l, eof, {| Comma := Comma r; input := rest; numLine := S (numLine r) |}).

Record position := mkPos { line : nat; col : nat }.

Definition startsWithQuote (l : bytes) : bool :=
  match l with
  | c :: _ => Byte.eqb c QUOTE
  | [] => false
  end.

Definition quoteLen : nat := 1.

(** The two loops of [readRecord]: [parseField] at the start of a field,
    [parseQuoted] inside a quoted field (which may read further lines). *)
Fixpoint parseField (fuel : nat) (recLine : nat) (ln : bytes) (r : Reader)
    (pos : position) (fields : list bytes) {struct fuel}
    : option (res (list bytes) * Reader) :=
  match fuel with
  | O => None
  | S f =>
      let commaLen := length (Utf8.EncodeRune (Comma r)) in
      if startsWithQuote ln then
        parseQuoted f recLine (drop quoteLen ln) r
          (mkPos (line pos) (col pos + quoteLen)) fields []
      else
        let i := IndexRune ln (Comma r) in
        let field :=
          match i with
          | Some i => take i ln
          | None => take (length ln - lengthNL ln) ln
          end in
        match IndexByte field QUOTE with
        | Some j =>
            Some (Err (ParseError recLine (numLine r) (col pos + j) ErrBareQuote), r)
        | None =>
            match i with
            | Some i =>
                parseField f recLine (drop (i + commaLen) ln) r
                  (mkPos (line pos) (col pos + (i + commaLen))) (fields ++ [field])
            | None => Some (Ok (fields ++ [field]), r)
            end
        end
  end
with parseQuoted (fuel : nat) (recLine : nat) (ln : bytes) (r : Reader)
    (pos : position) (fields : list bytes) (cur : bytes) {struct fuel}
    : option (res (list bytes) * Reader) :=
  match fuel with
  | O => None
  | S f =>
      let commaLen := length (Utf8.EncodeRune (Comma r)) in
      match IndexByte ln QUOTE with
      | Some i =>
          let cur := cur ++ take i ln in
          let ln := drop (i + quoteLen) ln in
          let pos := mkPos (line pos) (col pos + (i + quoteLen)) in
          if startsWithQuote ln then
            parseQuoted f recLine (drop quoteLen ln) r
              (mkPos (line pos) (col pos + quoteLen)) fields (cur ++ [QUOTE])
          else if hasPrefix (Utf8.EncodeRune (Comma r)) ln then
            parseField f recLine (drop commaLen ln) r
              (mkPos (line pos) (col pos + commaLen)) (fields ++ [cur])
          else if Nat.eqb (lengthNL ln) (length ln) then
            Some (Ok (fields ++ [cur]), r)
          else
            Some (Err (ParseError recLine (numLine r) (col pos - quoteLen) ErrQuote), r)
      | None =>
          if 0 <? length ln then
            let cur := cur ++ ln in
            let pos := mkPos (line pos) (col pos + length ln) in
            let '(ln', _, r') := readLine r in
            let pos := if 0 <? length ln' then mkPos (S (line pos)) 1 else pos in
            parseQuoted f recLine ln' r' pos fields cur
          else
            Some (Err (ParseError recLine (line pos) (col pos) ErrQuote), r)
      end
  end.

(** The first loop of [readRecord]: read a line, skipping empty ones. *)
Fixpoint nextLine (fuel : nat) (r : Reader) : option (bytes * bool * Reader) :=
  match fuel with
  | O => None
  | S f =>
      let '(ln, eof, r') := readLine r in
      if negb eof && Nat.eqb (length ln) (lengthNL ln) then nextLine f r'
      else Some (ln, eof, r')
  end.

Definition readRecord (r : Reader) : option (res (list string) * Reader) :=
  if negb (validDelim (Comma r)) then Some (Err ErrInvalidDelim, r)
  else
    match nextLine (S (length (input r))) r with
    | None => None
    | Some (ln, true, r') => Some (Err EOF, r')
    | Some (ln, false, r') =>
        match parseField (S (length ln + length (input r'))) (numLine r') ln r'
                (mkPos (numLine r') 1) [] with
        | None => None
        | Some (Ok fields, r'') => Some (Ok (text_of <$> fields), r'')
        | Some (Err e, r'') => Some (Err e, r'')
        end
    end.

(** [Read]: one record, or the error that ends or interrupts the reading.
    The bounds [readRecord] gives its loops always suffice
    ([readRecord_total] below), so the last case never applies. *)
Definition Read (r : Reader) : res (list string) * Reader :=
  match readRecord r with
  | Some x => x
  | None => (Err EOF, r)
  end.

(** The records [Read] delivers until it fails, and that failure. *)
Fixpoint drain (fuel : nat) (r : Reader) : list (list string) * error :=
  match fuel with
  | O => ([], EOF)
  | S f =>
      match Read r with
      | (Err err, _) => ([], err)
      | (Ok record, r') => let (records, err) := drain f r' in (record :: records, err)
      end
  end.

Definition records (r : Reader) : list (list string) * error :=
  drain (S (length (input r))) r.

End Csv.

(** *** The reader consumes its input

    Every loop of [readRecord] advances in the input, so the bounds given
    to [nextLine] and [parseField] are never reached, and a [Read] that
    delivers a record leaves strictly less input. *)

Module CsvFacts.

Import Csv.
Local Open Scope nat_scope.

Lemma ReadSlice_length s l rest found :
  ReadSlice s = (l, rest, found) ->
  length s = length l + length rest /\ (found = false -> rest = []) /\ (found = true -> l <> []).
Proof.
  revert l rest found. induction s as [|b s IH]; intros l rest found; simpl.
  - intros [= <- <- <-]. repeat split; auto; discriminate.
  - destruct (Byte.eqb b LF).
    + intros [= <- <- <-]. simpl. repeat split; auto; discriminate.
    + destruct (ReadSlice s) as [[l0 rest0] found0] eqn:E.
      intros [= <- <- <-]. destruct (IH _ _ _ eq_refl) as (H1 & H2 & _).
      simpl. repeat split; auto; try lia; discriminate.
Qed.

Lemma dropLastCR_length l : length (dropLastCR l) <= length l.
Proof.
  unfold dropLastCR. destruct (last l); [|lia].
  destruct (Byte.eqb _ _); [|lia].
  destruct l using rev_ind; [simpl; lia|].
  rewrite removelast_last, length_app. lia.
Qed.

Lemma normalizeCRLF_length l : length (normalizeCRLF l) <= length l.
Proof.
  unfold normalizeCRLF. destruct (_ && _) eqn:E; [|lia].
  apply andb_prop in E as [E _]. apply Nat.leb_le in E.
  rewrite length_app, length_take. simpl. lia.
Qed.

Lemma readLine_spec r ln eof r' :
  readLine r = (ln, eof, r') ->
  length ln + length (input r') <= length (input r)
  /\ (eof = false -> length (input r') < length (input r))
  /\ (eof = true -> ln = [])
  /\ Comma r' = Comma r.
Proof.
  unfold readLine. destruct (ReadSlice (input r)) as [[l rest] found] eqn:E.
  apply ReadSlice_length in E as (Hlen & Hrest & Hne).
  destruct ((0 <? length l) && negb found) eqn:C.
  - intros [= <- <- <-]. simpl.
    apply andb_prop in C as [C1 C2]. apply Nat.ltb_lt in C1.
    pose proof (normalizeCRLF_length (dropLastCR l)).
    pose proof (dropLastCR_length l).
    repeat split; try lia; try discriminate.
  - intros [= <- <- <-]. simpl.
    pose proof (normalizeCRLF_length l).
    repeat split; try lia.
    + intros Hf. apply negb_false_iff in Hf.
      specialize (Hne Hf). destruct l; [congruence|simpl in *; lia].
    + intros Ht. rewrite Ht, andb_true_r in C. apply Nat.ltb_ge in C.
      destruct l; [reflexivity|simpl in C; lia].
Qed.
Lemma Index_Some_nonempty sep s i :
  sep <> [] -> Index sep s = Some i -> 0 < length s.
Proof.
  intros Hsep. destruct s as [|b s]; simpl; [|lia].
  destruct sep; [congruence|]. simpl. discriminate.
Qed.

Lemma EncodeRune_nonempty r : Utf8.EncodeRune r <> [].
Proof.
  unfold Utf8.EncodeRune.
  repeat match goal with |- context [if ?b then _ else _] => destruct b end; discriminate.
Qed.

Lemma startsWithQuote_nonempty ln : startsWithQuote ln = true -> 0 < length ln.
Proof. destruct ln; simpl; [discriminate|lia]. Qed.

Lemma drop_shorter {A} (k : nat) (l : list A) : 0 < k -> 0 < length l -> length (drop k l) < length l.
Proof. intros. rewrite length_drop. lia. Qed.

Lemma drop_le {A} (k : nat) (l : list A) : length (drop k l) <= length l.
Proof. rewrite length_drop. lia. Qed.

(** Within their bound both loops end, and they only take input away. *)
Lemma parse_total fuel :
  (forall recLine ln r pos fields,
      length ln + length (input r) < fuel ->
      exists x r', parseField fuel recLine ln r pos fields = Some (x, r')
                   /\ length (input r') <= length (input r) /\ Comma r' = Comma r)
  /\ (forall recLine ln r pos fields cur,
      length ln + length (input r) < fuel ->
      exists x r', parseQuoted fuel recLine ln r pos fields cur = Some (x, r')
                   /\ length (input r') <= length (input r) /\ Comma r' = Comma r).
Proof.
  induction fuel as [|f [IHf IHq]]; [split; intros; lia|].
  split.
  - intros recLine ln r pos fields Hlt. cbn [parseField].
    destruct (startsWithQuote ln) eqn:Q.
    + apply IHq. apply startsWithQuote_nonempty in Q.
      pose proof (drop_shorter quoteLen ln). unfold quoteLen in *. lia.
    + destruct (IndexRune ln (Comma r)) as [i|] eqn:I.
      * destruct (IndexByte (take i ln) QUOTE); [eauto|].
        apply IHf. apply Index_Some_nonempty in I; [|apply EncodeRune_nonempty].
        pose proof (EncodeRune_nonempty (Comma r)).
        assert (0 < length (Utf8.EncodeRune (Comma r)))
          by (destruct (Utf8.EncodeRune (Comma r)); [congruence|simpl; lia]).
        pose proof (drop_shorter (i + length (Utf8.EncodeRune (Comma r))) ln). lia.
      * destruct (IndexByte _ QUOTE); eauto.
  - intros recLine ln r pos fields cur Hlt. cbn [parseQuoted].
    destruct (IndexByte ln QUOTE) as [i|] eqn:I.
    + apply Index_Some_nonempty in I; [|discriminate].
      pose proof (drop_shorter (i + quoteLen) ln) as D. unfold quoteLen in *.
      destruct (startsWithQuote _).
      { apply IHq. pose proof (drop_le 1 (drop (i + 1) ln)). lia. }
      destruct (hasPrefix _ _).
      { apply IHf.
        pose proof (drop_le (length (Utf8.EncodeRune (Comma r))) (drop (i + 1) ln)). lia. }
      destruct (Nat.eqb _ _); eauto.
    + destruct (0 <? length ln) eqn:L; [|eauto].
      apply Nat.ltb_lt in L.
      destruct (readLine r) as [[ln' eof] r'] eqn:RL.
      apply readLine_spec in RL as (H1 & _ & _ & HC).
      destruct (IHq recLine ln' r'
                  (if 0 <? length ln'
                   then mkPos (S (line {| line := line pos; col := col pos + length ln |})) 1
                   else {| line := line pos; col := col pos + length ln |})
                  fields (cur ++ ln)) as (x & r'' & E & Hle & HC'); [lia|].
      exists x, r''. split; [exact E|]. split; [lia|congruence].
Qed.

Lemma nextLine_total fuel r :
  length (input r) < fuel ->
  exists ln eof r', nextLine fuel r = Some (ln, eof, r')
    /\ length ln + length (input r') <= length (input r)
    /\ (eof = false -> length (input r') < length (input r))
    /\ Comma r' = Comma r.
Proof.
  revert r. induction fuel as [|f IH]; intros r Hlt; [lia|].
  cbn [nextLine]. destruct (readLine r) as [[ln eof] r'] eqn:RL.
  apply readLine_spec in RL as (H1 & H2 & _ & HC).
  destruct (negb eof && Nat.eqb (length ln) (lengthNL ln)) eqn:C.
  - apply andb_prop in C as [C _]. apply negb_true_iff in C.
    specialize (H2 C).
    destruct (IH r') as (ln2 & eof2 & r2 & E & G1 & G2 & G3); [lia|].
    exists ln2, eof2, r2. repeat split; try assumption; try lia; try congruence.
  - exists ln, eof, r'. repeat split; auto.
Qed.

Lemma readRecord_total r :
  exists x r', readRecord r = Some (x, r')
    /\ length (input r') <= length (input r)
    /\ (forall rec, x = Ok rec -> length (input r') < length (input r))
    /\ Comma r' = Comma r.
Proof.
  unfold readRecord. destruct (negb (validDelim (Comma r))).
  { exists (Err ErrInvalidDelim), r. repeat split; auto. discriminate. }
  destruct (nextLine_total (S (length (input r))) r) as (ln & eof & r' & E & G1 & G2 & G3); [lia|].
  rewrite E. destruct eof.
  { exists (Err EOF), r'. repeat split; auto; [lia|discriminate]. }
  specialize (G2 eq_refl).
  destruct (proj1 (parse_total (S (length ln + length (input r')))) (numLine r') ln r'
              (mkPos (numLine r') 1) []) as (x & r'' & P & Hle & HC); [lia|].
  rewrite P. destruct x as [fields|e].
  - exists (Ok (text_of <$> fields)), r''. repeat split; auto; try lia; congruence.
  - exists (Err e), r''. repeat split; auto; try lia; try congruence.
Qed.

Lemma Read_readRecord r : readRecord r = Some (Read r).
Proof.
  unfold Read. destruct (readRecord_total r) as (x & r' & E & _). now rewrite E.
Qed.

Lemma Read_consumes r rec r' :
  Read r = (Ok rec, r') -> length (input r') < length (input r).
Proof.
  intros E. destruct (readRecord_total r) as (x & r2 & E2 & _ & H & _).
  rewrite Read_readRecord in E2. injection E2 as E2. rewrite E in E2.
  injection E2 as <- <-. eauto.
Qed.

Lemma Read_Comma r x r' : Read r = (x, r') -> Comma r' = Comma r.
Proof.
  intros E. destruct (readRecord_total r) as (y & r2 & E2 & _ & _ & H).
  rewrite Read_readRecord in E2. injection E2 as E2. rewrite E in E2.
  now injection E2 as <- <-.
Qed.

End CsvFacts.

(** ** Calls that may panic

    Indexing [delimiter[0]] panics on an empty delimiter; a panic unwinds
    every caller. *)
Inductive outcome (A : Type) :=
| Returns (a : A)
| Panics.
Arguments Returns {A} a.
Arguments Panics {A}.

(** ** io.Reader

    A stream delivers its bytes and then either [io.EOF] or a read error. *)
Record ioReader := mkIoReader { data : bytes; failure : option error }.

Definition NewReader (b : bytes) : ioReader := {| data := b; failure := None |}.

(** [io.Copy] into a fresh buffer: the bytes read and the error, if any. *)
Definition Copy (r : ioReader) : bytes * option error := (data r, failure r).

(** [io.LimitReader r n]: reads from [r] and reports [io.EOF] once [n]
    bytes were delivered, without reading [r] again. *)
Definition LimitReader (r : ioReader) (n : Z) : ioReader :=
  {| data := take (Z.to_nat n) (data r);
     failure := if (length (data r) <? Z.to_nat n)%nat then failure r else None |}.

(** ** package parser: rows *)

Module Rows.

Record Row := mkRow { LineNumber : nat; Data : list string; Headers : list string }.

(** [Row.IsEmpty] *)
Definition IsEmpty (r : Row) : bool :=
  if Nat.eqb (length (Data r)) 0 then true
  else if Nat.eqb (length (Data r)) 1 && String.eqb (default "" (head (Data r))) "" then true
  else forallb (fun field => String.eqb field "") (Data r).

End Rows.

(** What the engine uses of package [parser]. The package exists in two
    revisions, one opening a file by path and one buffering an
    [io.Reader]; [Src] is what [NewParser] is given. [pending] measures
    the input a parser has not read yet: a row read makes it smaller,
    which is why the engine's row loop ends. *)
Class ParserAPI (P Src : Type) := {
  NewParser : Src -> string -> outcome (res P);
  ValidateUTF8 : P -> option error * P;
  ReadHeaders : P -> res (list string) * P;
  ReadRow : P -> res Rows.Row * P;
  pending : P -> nat;
  ReadRow_pending : forall p row p', ReadRow p = (Ok row, p') -> (pending p' < pending p)%nat
}.

(** [rune(delimiter[0])] *)
Definition delimiterRune (delimiter : string) : option N :=
  match delimiter with
  | EmptyString => None
  | String c _ => Some (N_of_ascii c)
  end.

(** ** package parser, reading a file by path (src/internal/parser/parser.go) *)

Module FileParser.

Local Open Scope nat_scope.

(** The files [os.Open] can open, with their contents. *)
Definition FileSystem := string -> option bytes.

Record Parser := mkParser {
  file : bytes;
  reader : Csv.Reader;
  lineNumber : nat;
  headers : list string
}.

Definition NewParser (fs : FileSystem) (filePath delimiter : string) : outcome (res Parser) :=
  match fs filePath with
  | None =>
      Returns (Err (Errorf ("failed to open file: open " ++ filePath ++ ": no such file or directory")))
  | Some content =>
      match delimiterRune delimiter with
      | None => Panics
      | Some c =>
          Returns (Ok {| file := content;
                         reader := Csv.setComma c (Csv.NewReader content);
                         lineNumber := 0;
                         headers := [] |})
      end
  end.

Definition ReadHeaders (p : Parser) : res (list string) * Parser :=
  match Csv.Read (reader p) with
  | (Err err, r) =>
      (Err (Errorf ("failed to read headers: " ++ errorText err)),
       {| file := file p; reader := r; lineNumber := lineNumber p; headers := headers p |})
  | (Ok hs, r) =>
      (Ok hs, {| file := file p; reader := r; lineNumber := S (lineNumber p); headers := hs |})
  end.

Definition ReadRow (p : Parser) : res Rows.Row * Parser :=
  match Csv.Read (reader p) with
  | (Err EOF, r) =>
      (Err EOF, {| file := file p; reader := r; lineNumber := lineNumber p; headers := headers p |})
  | (Err err, r) =>
      (Err (Errorf ("failed to read row " ++ itoa (lineNumber p + 1) ++ ": " ++ errorText err)),
       {| file := file p; reader := r; lineNumber := lineNumber p; headers := headers p |})
  | (Ok record, r) =>
      (Ok {| Rows.LineNumber := S (lineNumber p); Rows.Data := record; Rows.Headers := headers p |},
       {| file := file p; reader := r; lineNumber := S (lineNumber p); headers := headers p |})
  end.

(** The successive results of [reader.Read(buffer)] on a regular file:
    blocks of [len(buffer)] bytes, the last one shorter. *)
Fixpoint blocks (fuel : nat) (size : nat) (content : bytes) : list bytes :=
  match fuel with
  | O => []
  | S f =>
      match content with
      | [] => []
      | _ => take size content :: blocks f size (drop size content)
      end
  end.

Definition bufferSize : nat := 4096.

(** [ValidateUTF8]: every block read must be valid by itself; afterwards
    the file is rewound and a fresh reader made. The fresh reader's
    [Comma] is assigned from itself, so it is the default comma. *)
Definition ValidateUTF8 (p : Parser) : option error * Parser :=
  if forallb Utf8.Valid (blocks (length (file p)) bufferSize (file p)) then
    (None, {| file := file p; reader := Csv.NewReader (file p);
              lineNumber := lineNumber p; headers := headers p |})
  else
    (Some (Errorf "file contains invalid UTF-8 encoding"), p).

Definition GetLineNumber (p : Parser) : nat := lineNumber p.

Definition pending (p : Parser) : nat := length (Csv.input (reader p)).

Lemma file_ReadRow_pending p row p' :
  ReadRow p = (Ok row, p') -> pending p' < pending p.
Proof.
  unfold ReadRow, pending. destruct (Csv.Read (reader p)) as [[record|e] r] eqn:E.
  - intros [= <- <-]. simpl. eapply CsvFacts.Read_consumes; eauto.
  - destruct e; discriminate.
Qed.

Definition api (fs : FileSystem) : ParserAPI Parser string :=
  Build_ParserAPI Parser string (NewParser fs) ValidateUTF8 ReadHeaders ReadRow
    pending file_ReadRow_pending.

End FileParser.

(** ** package parser, buffering an io.Reader *)

Module Parser.

Local Open Scope nat_scope.

Record Parser := mkParser {
  reader : Csv.Reader;
  lineNumber : nat;
  headers : list string;
  buffer : bytes;
  delimiter : N
}.

Definition NewParser (input : ioReader) (delimiter : string) : outcome (res Parser) :=
  match Copy input with
  | (_, Some err) => Returns (Err (Errorf ("failed to read input: " ++ errorText err)))
  | (buf, None) =>
      match delimiterRune delimiter with
      | None => Panics
      | Some c =>
          Returns (Ok {| reader := Csv.setComma c (Csv.NewReader buf);
                         lineNumber := 0;
                         headers := [];
                         buffer := buf;
                         delimiter := c |})
      end
  end.

Definition Close (p : Parser) : option error := None.

Definition setReader (r : Csv.Reader) (p : Parser) : Parser :=
  {| reader := r; lineNumber := lineNumber p; headers := headers p;
     buffer := buffer p; delimiter := delimiter p |}.

Definition ReadHeaders (p : Parser) : res (list string) * Parser :=
  match Csv.Read (reader p) with
  | (Err EOF, r) => (Err (Errorf "empty input: no headers found"), setReader r p)
  | (Err err, r) => (Err (Errorf ("failed to read headers: " ++ errorText err)), setReader r p)
  | (Ok hs, r) =>
      (Ok hs, {| reader := r; lineNumber := S (lineNumber p); headers := hs;
                 buffer := buffer p; delimiter := delimiter p |})
  end.

Definition ReadRow (p : Parser) : res Rows.Row * Parser :=
  match Csv.Read (reader p) with
  | (Err EOF, r) => (Err EOF, setReader r p)
  | (Err err, r) =>
      (Err (Errorf ("failed to read row " ++ itoa (lineNumber p + 1) ++ ": " ++ errorText err)),
       setReader r p)
  | (Ok record, r) =>
      (Ok {| Rows.LineNumber := S (lineNumber p); Rows.Data := record; Rows.Headers := headers p |},
       {| reader := r; lineNumber := S (lineNumber p); headers := headers p;
          buffer := buffer p; delimiter := delimiter p |})
  end.

Definition ValidateUTF8 (p : Parser) : option error * Parser :=
  if negb (Utf8.Valid (buffer p)) then
    (Some (Errorf "input contains invalid UTF-8 encoding"), p)
  else
    (None, setReader (Csv.setComma (delimiter p) (Csv.NewReader (buffer p))) p).

Definition GetLineNumber (p : Parser) : nat := lineNumber p.

Definition pending (p : Parser) : nat := length (Csv.input (reader p)).

Lemma buffer_ReadRow_pending p row p' :
  ReadRow p = (Ok row, p') -> pending p' < pending p.
Proof.
  unfold ReadRow, pending. destruct (Csv.Read (reader p)) as [[record|e] r] eqn:E.
  - intros [= <- <-]. simpl. eapply CsvFacts.Read_consumes; eauto.
  - destruct e; discriminate.
Qed.

Definition api : ParserAPI Parser ioReader :=
  Build_ParserAPI Parser ioReader NewParser ValidateUTF8 ReadHeaders ReadRow
    pending buffer_ReadRow_pending.

End Parser.

(** ** strconv and float64

    [strconv.Atoi] is modelled in full. The engine never computes with a
    [float64]: it parses one, hands it to the schema and prints it. The
    type and these two operations are therefore an interface. *)

Module Strconv.

Local Open Scope Z_scope.

Definition digitValue (c : ascii) : option Z :=
  let n := Z.of_N (N_of_ascii c) in
  if (48 <=? n) && (n <=? 57) then Some (n - 48) else None.

Fixpoint parseDigits (s : string) (acc : Z) : option Z :=
  match s with
  | EmptyString => Some acc
  | String c s' =>
      match digitValue c with
      | Some d => parseDigits s' (acc * 10 + d)
      | None => None
      end
  end.

(** [Atoi]: an optional sign and at least one decimal digit, the value
    within the 64-bit [int]. *)
Definition Atoi (s : string) : option Z :=
  let (neg, body) :=
    match s with
    | String "-" s' => (true, s')
    | String "+" s' => (false, s')
    | _ => (false, s)
    end in
  match body with
  | EmptyString => None
  | _ =>
      match parseDigits body 0 with
      | Some n =>
          let v := if neg then - n else n in
          if (- 2 ^ 63 <=? v) && (v <=? 2 ^ 63 - 1) then Some v else None
      | None => None
      end
  end.

(** [%d] of an [int]. *)
Definition formatInt (z : Z) : string :=
  if z <? 0 then "-" ++ itoa (Z.to_nat (- z)) else itoa (Z.to_nat z).

Class Float64 := {
  float64 : Type;
  ParseFloat : string -> option float64;   (* strconv.ParseFloat(s, 64), [None] on error *)
  formatFloat : float64 -> string          (* fmt's [%v] of a float64 *)
}.

(** The decimal integer literals of magnitude at most 2^53: [float64]
    holds each of them exactly, [ParseFloat] returns that value and [%v]
    prints it without exponent. This instance knows no other literal. *)
Definition exactIntegers : Float64 :=
  {| float64 := Z;
     ParseFloat := fun s =>
       match Atoi s with
       | Some z => if Z.abs z <=? 2 ^ 53 then Some z else None
       | None => None
       end;
     formatFloat := formatInt |}.

End Strconv.

(** ** jsonschema: what the row validator uses of a compiled schema *)

Module Jsonschema.

Import Strconv.
Local Set Warnings "-register-all".

(** A value stored in a [map[string]interface{}]. *)
Inductive value `{F : Float64} :=
| VString (s : string)
| VInt (n : Z)
| VFloat (f : float64).

(** [*jsonschema.ValidationError]: a tree of causes. *)
Inductive ValidationError :=
| mkValidationError (InstanceLocation Message : string) (Causes : list ValidationError).

Definition InstanceLocation (e : ValidationError) : string :=
  let 'mkValidationError l _ _ := e in l.
Definition Message (e : ValidationError) : string :=
  let 'mkValidationError _ m _ := e in m.
Definition Causes (e : ValidationError) : list ValidationError :=
  let 'mkValidationError _ _ c := e in c.

(** What [Schema.Validate] returns: [nil], a validation error, or an
    error of another kind. *)
Inductive verdict :=
| Valid
| Invalid (e : ValidationError)
| Failed (e : error).

(** A compiled schema: the [Types] of each of its [Properties], in the
    order the schema document lists them, and its [Validate] method. *)
Record Schema `{F : Float64} := mkSchema {
  Properties : gmap string (list string);
  Validate : gmap string value -> verdict
}.

End Jsonschema.

(** ** package schema: the row validator *)

Module Schema.

Import Strconv Jsonschema.
Local Open Scope nat_scope.

Section RowValidator.

Context `{F : Float64}.

Record Validator := mkValidator { schema : Schema }.

Record ValidationError := mkIssue { Field : string; Message : string; Value : string }.

(** The loop over [prop.Types]: the first listed type that is
    ["integer"] or ["number"] and whose conversion succeeds gives the
    value; otherwise the value stays the string. *)
Fixpoint coerce (types : list string) (raw : string) : value :=
  match types with
  | [] => VString raw
  | t :: rest =>
      if String.eqb t "integer" then
        match Atoi raw with
        | Some v => VInt v
        | None => coerce rest raw
        end
      else if String.eqb t "number" then
        match ParseFloat raw with
        | Some v => VFloat v
        | None => coerce rest raw
        end
      else coerce rest raw
  end.

(** The value stored for one column. *)
Definition fieldValue (v : Validator) (header raw : string) : value :=
  match Properties (schema v) !! header with
  | Some types => coerce types raw
  | None => VString raw
  end.

(** The map built by the loop over [headers]; rows and headers have
    the same length here. A header that occurs twice keeps the value of
    its last column. *)
Fixpoint buildRow (v : Validator) (headers data : list string)
    (rowData : gmap string value) : gmap string value :=
  match headers, data with
  | header :: hs, raw :: ds => buildRow v hs ds (<[header := fieldValue v header raw]> rowData)
  | _, _ => rowData
  end.

(** [fmt.Sprintf("%v", val)] *)
Definition formatValue (val : value) : string :=
  match val with
  | VString s => s
  | VInt n => formatInt n
  | VFloat f => formatFloat f
  end.

(** [strings.TrimPrefix(s, "/")] *)
Definition trimSlash (s : string) : string :=
  match s with
  | String "/" s' => s'
  | _ => s
  end.

Fixpoint convertValidationErrors (err : Jsonschema.ValidationError)
    (data : gmap string value) : list ValidationError :=
  let 'mkValidationError location message causes := err in
  (if negb (String.eqb location "") then
     let field := trimSlash location in
     let originalValue :=
       match data !! field with
       | Some val => formatValue val
       | None => ""
       end in
     [{| Field := field; Message := message; Value := originalValue |}]
   else [])
  ++ concat (map (fun cause => convertValidationErrors cause data) causes).

Definition ValidateRow (v : Validator) (headers data : list string)
    : res (list ValidationError) :=
  if negb (Nat.eqb (length headers) (length data)) then
    Ok [{| Field := "row";
           Message := "mismatched columns: headers=" ++ itoa (length headers)
                      ++ ", data=" ++ itoa (length data);
           Value := "" |}]
  else
    let rowData := buildRow v headers data ∅ in
    match Validate (schema v) rowData with
    | Invalid validationErr => Ok (convertValidationErrors validationErr rowData)
    | Failed err => Err (Errorf ("schema validation error: " ++ errorText err))
    | Valid => Ok []
    end.

End RowValidator.

End Schema.

(** ** path/filepath on slash-separated paths

    A cleaned path is kept as its elements, innermost first, and whether it
    is rooted: ["/a/b"] is [(true, ["b"; "a"])], ["."] is [(false, [])] and
    ["/"] is [(true, [])]. *)

Module Filepath.

Record Path := mkPath { rooted : bool; elems : list string }.

Fixpoint split (s : string) : list string :=
  match s with
  | EmptyString => [""]
  | String c s' =>
      if Ascii.eqb c "/" then "" :: split s'
      else match split s' with
           | h :: t => String c h :: t
           | [] => [String c ""]
           end
  end.

(** One step of [Clean]: empty and ["."] elements vanish, [".."] removes
    the element before it, stays at the front of a relative path and
    vanishes at the root. *)
Definition push (p : Path) (e : string) : Path :=
  if String.eqb e "" || String.eqb e "." then p
  else if String.eqb e ".." then
    match elems p with
    | x :: up =>
        if String.eqb x ".." then mkPath (rooted p) (e :: elems p)
        else mkPath (rooted p) up
    | [] => if rooted p then p else mkPath false [e]
    end
  else mkPath (rooted p) (e :: elems p).

Definition isRooted (s : string) : bool :=
  match s with
  | String "/" _ => true
  | _ => false
  end.

Definition Clean (s : string) : Path := foldl push (mkPath (isRooted s) []) (split s).

Definition render (p : Path) : string :=
  match elems p with
  | [] => if rooted p then "/" else "."
  | _ => (if rooted p then "/" else "") ++ String.concat "/" (rev (elems p))
  end.

(** [Dir]: everything up to the last separator, cleaned. *)
Definition Dir (s : string) : Path :=
  foldl push (mkPath (isRooted s) []) (removelast (split s)).

(** [Dir] of a cleaned directory. *)
Definition parent (p : Path) : Path := mkPath (rooted p) (tail (elems p)).

(** [Base]: the last element, trailing separators ignored. *)
Definition Base (s : string) : string :=
  if String.eqb s "" then "."
  else match filter (fun e => e <> "") (rev (split s)) with
       | e :: _ => e
       | [] => "/"
       end.

Fixpoint lastDot (s : string) : option nat :=
  match s with
  | EmptyString => None
  | String c s' =>
      match lastDot s' with
      | Some i => Some (S i)
      | None => if Ascii.eqb c "." then Some 0 else None
      end
  end.

(** [Ext]: the suffix from the final dot of the final element. *)
Definition Ext (s : string) : string :=
  let e := default "" (last (split s)) in
  match lastDot e with
  | Some i => substring i (String.length e - i) e
  | None => ""
  end.

(** [Join] of a cleaned directory and one more argument. *)
Definition Join (dir : Path) (name : string) : Path := foldl push dir (split name).

End Filepath.

(** ** package schema: finding the schema file (src/internal/schema/resolve.go) *)

Module Resolve.

Import Filepath.

(** What [os.Stat] finds at a path. *)
Inductive FileMode := Regular | Directory.

Definition FileSystem := gmap string FileMode.

Definition projectRootIndicators : list string := [".git"; "package.json"].

Definition fileExists (fs : FileSystem) (path : Path) : bool :=
  match fs !! render path with
  | Some Regular => true
  | _ => false
  end.

Definition isProjectRoot (fs : FileSystem) (dir : Path) : bool :=
  existsb (fun marker => fileExists fs (Join dir marker)) projectRootIndicators.

Definition isSystemRoot (dir : Path) : bool :=
  bool_decide (render dir = render (parent dir)).

(** The loop of step 3, from the directory with elements [up] upward. *)
Fixpoint walk (fs : FileSystem) (isRoot : bool) (up : list string) : string :=
  let dir := mkPath isRoot up in
  if isProjectRoot fs dir || isSystemRoot dir then ""
  else
    let candidate := Join dir "csvlinter.schema.json" in
    if fileExists fs candidate then render candidate
    else
      match up with
      | [] => ""
      | _ :: up' => walk fs isRoot up'
      end.

Definition ResolveSchema (fs : FileSystem) (csvPath : string) : string :=
  let csvDir := Dir csvPath in
  let csvBase := Base csvPath in
  let csvName := substring 0 (String.length csvBase - String.length (Ext csvBase)) csvBase in
  let candidate := Join csvDir (csvName ++ ".schema.json") in
  if fileExists fs candidate then render candidate
  else
    let candidate := Join csvDir "csvlinter.schema.json" in
    if fileExists fs candidate then render candidate
    else walk fs (rooted csvDir) (elems csvDir).

End Resolve.

(** ** package validator: the engine *)

Module Validator.

Import Strconv.
Local Open Scope nat_scope.

(** The field [Type] of the source is [Type_] here ([Type] is reserved). *)
Record Error := mkError {
  LineNumber : nat;
  Field : string;
  Message : string;
  Value : string;
  Type_ : string
}.

Record Warning := mkWarning {
  wLineNumber : nat;
  wField : string;
  wMessage : string;
  wValue : string;
  wType : string
}.

Record Results := mkResults {
  File : string;
  TotalRows : nat;
  Errors : list Error;
  Warnings : list Warning;
  Duration : string;
  Valid : bool;
  SchemaUsed : bool
}.

Section Engine.

Context `{F : Float64} {P Src : Type} `{API : !ParserAPI P Src}.

(** [input] is what [NewParser] is called with, [filePath] the name
    reported in [File]; for the engine that opens the file itself both
    are the path. *)
Record Validator := mkValidator {
  input : Src;
  filePath : string;
  delimiter : string;
  schemaValidator : option Schema.Validator;
  failFast : bool
}.

Definition structureError (headers : list string) (row : Rows.Row) : Error :=
  {| LineNumber := Rows.LineNumber row;
     Field := "row";
     Message := "column count mismatch: expected " ++ itoa (length headers)
                ++ ", got " ++ itoa (length (Rows.Data row));
     Value := "";
     Type_ := "structure" |}.

Definition schemaError (row : Rows.Row) (schemaErr : Schema.ValidationError) : Error :=
  {| LineNumber := Rows.LineNumber row;
     Field := Schema.Field schemaErr;
     Message := Schema.Message schemaErr;
     Value := Schema.Value schemaErr;
     Type_ := "schema" |}.

(** The body of the row loop after a row was read: the errors with
    those of this row appended, or the error that aborts the run. *)
Definition validateRow (v : Validator) (headers : list string) (row : Rows.Row)
    (errors : list Error) : res (list Error) :=
  let errors :=
    if negb (Nat.eqb (length (Rows.Data row)) (length headers))
    then errors ++ [structureError headers row]
    else errors in
  match schemaValidator v with
  | Some sv =>
      match Schema.ValidateRow sv headers (Rows.Data row) with
      | Err err =>
          Err (Errorf ("schema validation error on line " ++ itoa (Rows.LineNumber row)
                       ++ ": " ++ errorText err))
      | Ok schemaErrors => Ok (errors ++ map (schemaError row) schemaErrors)
      end
  | None => Ok errors
  end.

(** The row loop; [fuel] bounds the number of rows read. *)
Fixpoint rowLoop (fuel : nat) (v : Validator) (headers : list string) (p : P)
    (errors : list Error) (totalRows : nat) : option (res (list Error * nat)) :=
  match fuel with
  | O => None
  | S f =>
      match ReadRow p with
      | (Err err, _) =>
          if String.eqb (errorText err) "EOF" then Some (Ok (errors, totalRows))
          else Some (Err (Errorf ("failed to read row: " ++ errorText err)))
      | (Ok row, p') =>
          let totalRows := S totalRows in
          match validateRow v headers row errors with
          | Err err => Some (Err err)
          | Ok errors =>
              if failFast v && (0 <? length errors) then Some (Ok (errors, totalRows))
              else rowLoop f v headers p' errors totalRows
          end
      end
  end.

(** [Validate]. [duration] is what the clock gives for
    [time.Since(startTime).String()] when the result is built. The loop
    is given more fuel than there is input pending, so it always ends
    by itself ([rowLoop_fuel] below). *)
Definition Validate (v : Validator) (duration : string) : outcome (res Results) :=
  match NewParser (input v) (delimiter v) with
  | Panics => Panics
  | Returns (Err err) => Returns (Err (Errorf ("failed to create parser: " ++ errorText err)))
  | Returns (Ok p) =>
      match ValidateUTF8 p with
      | (Some err, _) =>
          Returns (Ok {| File := filePath v;
                         TotalRows := 0;
                         Errors := [{| LineNumber := 0; Field := ""; Message := errorText err;
                                       Value := ""; Type_ := "encoding" |}];
                         Warnings := [];
                         Duration := duration;
                         Valid := false;
                         SchemaUsed := false |})
      | (None, p) =>
          match ReadHeaders p with
          | (Err err, _) =>
              Returns (Err (Errorf ("failed to read headers: " ++ errorText err)))
          | (Ok headers, p) =>
              match rowLoop (S (pending p)) v headers p [] 0 with
              | None => Panics
              | Some (Err err) => Returns (Err err)
              | Some (Ok (errors, totalRows)) =>
                  Returns (Ok {| File := filePath v;
                                 TotalRows := totalRows;
                                 Errors := errors;
                                 Warnings := [];
                                 Duration := duration;
                                 Valid := Nat.eqb (length errors) 0;
                                 SchemaUsed := bool_decide (schemaValidator v <> None) |})
              end
          end
      end
  end.

(** *** The run seen from outside: the rows of the document

    [readRows] lists the rows a parser delivers until [ReadRow] fails,
    and that failure; [processRows] is the row loop run over such a
    list. [rowLoop_drain] below shows that [rowLoop] computes it. *)

Fixpoint drain (fuel : nat) (p : P) : list Rows.Row * error :=
  match fuel with
  | O => ([], EOF)
  | S f =>
      match ReadRow p with
      | (Err err, _) => ([], err)
      | (Ok row, p') => let (rows, err) := drain f p' in (row :: rows, err)
      end
  end.

Definition readRows (p : P) : list Rows.Row * error := drain (S (pending p)) p.

(** The errors a row contributes by itself. *)
Definition rowErrors (v : Validator) (headers : list string) (row : Rows.Row)
    : res (list Error) :=
  validateRow v headers row [].

Fixpoint processRows (v : Validator) (headers : list string) (rows : list Rows.Row)
    (final : error) (errors : list Error) (totalRows : nat) : res (list Error * nat) :=
  match rows with
  | [] =>
      if String.eqb (errorText final) "EOF" then Ok (errors, totalRows)
      else Err (Errorf ("failed to read row: " ++ errorText final))
  | row :: rest =>
      match validateRow v headers row errors with
      | Err err => Err err
      | Ok errors =>
          if failFast v && (0 <? length errors) then Ok (errors, S totalRows)
          else processRows v headers rest final errors (S totalRows)
      end
  end.

(** The validator of a run, with fail-fast set to [b]. *)
Definition withFailFast (b : bool) (v : Validator) : Validator :=
  {| input := input v; filePath := filePath v; delimiter := delimiter v;
     schemaValidator := schemaValidator v; failFast := b |}.

(** The headers and rows of the input of [v], when the parser can be
    made, the encoding is valid and the headers can be read. *)
Definition document (v : Validator) : option (list string * list Rows.Row * error) :=
  match NewParser (input v) (delimiter v) with
  | Returns (Ok p) =>
      match ValidateUTF8 p with
      | (None, p) =>
          match ReadHeaders p with
          | (Ok headers, p) => let (rows, err) := readRows p in Some (headers, rows, err)
          | _ => None
          end
      | _ => None
      end
  | _ => None
  end.

End Engine.

Arguments Validator {F} Src.

(** [New], for the engine that opens the file at [filePath] itself. *)
Definition New `{F : Float64} (filePath delimiter : string)
    (schemaValidator : option Schema.Validator) (failFast : bool) : Validator string :=
  {| input := filePath;
     filePath := filePath;
     delimiter := delimiter;
     schemaValidator := schemaValidator;
     failFast := failFast |}.

End Validator.

(** ** package cmd: where the input comes from *)

Module Cmd.

Import Strconv.

(** The default of the [max-size] flag. *)
Definition defaultMaxSize : Z := 10 * 1024 * 1024.

(** [validator.New] as the command calls it, with the stream and the
    name to report. *)
Definition New `{F : Float64} (input : ioReader) (name delimiter : string)
    (schemaValidator : option Schema.Validator) (failFast : bool)
    : Validator.Validator ioReader :=
  {| Validator.input := input;
     Validator.filePath := name;
     Validator.delimiter := delimiter;
     Validator.schemaValidator := schemaValidator;
     Validator.failFast := failFast |}.

(** The choice of the input in [validateAction]: standard input behind
    an [io.LimitReader] for the argument ["-"], the opened file
    otherwise. [open] is [os.Open]. *)
Definition selectInput (stdin : ioReader) (open : string -> res ioReader)
    (csvPath : string) (maxSize : Z) : res (ioReader * string) :=
  if String.eqb csvPath "-" then Ok (LimitReader stdin maxSize, "STDIN")
  else
    match open csvPath with
    | Err err =>
        Err (Errorf ("Error: Cannot open file '" ++ csvPath ++ "': " ++ errorText err))
    | Ok file => Ok (file, csvPath)
    end.

(** [validateAction] from the choice of the input to the run of the
    engine, for a schema validator already loaded. *)
Definition validateAction `{F : Float64} (stdin : ioReader) (open : string -> res ioReader)
    (csvPath delimiter : string) (schemaValidator : option Schema.Validator)
    (failFast : bool) (maxSize : Z) (duration : string) : outcome (res Validator.Results) :=
  match selectInput stdin open csvPath maxSize with
  | Err err => Returns (Err err)
  | Ok (input, name) =>
      match Validator.Validate (API := Parser.api)
              (New input name delimiter schemaValidator failFast) duration with
      | Panics => Panics
      | Returns (Err err) =>
          Returns (Err (Errorf ("Error during validation: " ++ errorText err)))
      | Returns (Ok results) => Returns (Ok results)
      end
  end.

End Cmd.

(** * Inputs and specifications used by the properties *)

Import Strconv Validator.

(** A newline, and a validator on a text without schema. *)
Definition nl : string := String "010"%char "".

Definition plainValidator (text : string) (failFast : bool) : Validator (F := exactIntegers) ioReader :=
  Cmd.New (NewReader (bytes_of text)) "data.csv" "," None failFast.

Definition structureErrorAt (line expected got : nat) : Error :=
  {| LineNumber := line; Field := "row";
     Message := "column count mismatch: expected " ++ itoa expected ++ ", got " ++ itoa got;
     Value := ""; Type_ := "structure" |}.

(** Rows on lines 2 and 3 are short, the row on line 4 is complete. *)
Definition twoShortRows : string := "a,b" ++ nl ++ "1" ++ nl ++ "2" ++ nl ++ "3,4".


Definition scenario : string := "name,age" ++ nl ++ "John,30" ++ nl ++ "Jane".

(** A schema that declares nothing and accepts every row. *)
Definition acceptAll : Schema.Validator (F := exactIntegers) :=
  {| Schema.schema :=
       {| Jsonschema.Properties := ∅; Jsonschema.Validate := fun _ => Jsonschema.Valid |} |}.


Definition bytesValidator (input : bytes) (schemaValidator : option Schema.Validator)
    : Validator (F := exactIntegers) ioReader :=
  Cmd.New (NewReader input) "data.csv" "," schemaValidator false.

Definition invalidBytes : bytes := [Byte.xff; Byte.xfe; Byte.xfd].

(** 4095 letters and then a two-byte character, U+00E9, whose bytes are the
    last of the first block of 4096 and the first of the second. *)
Definition straddling : bytes := repeat "a"%byte 4095 ++ [Byte.xc3; Byte.xa9].

Definition fileParserOn (content : bytes) : FileParser.Parser :=
  {| FileParser.file := content;
     FileParser.reader := Csv.NewReader content;
     FileParser.lineNumber := 0;
     FileParser.headers := [] |}.

(** A project with a package manifest and a schema at its root, and a CSV
    file two directories below. *)
Definition projectTree : Resolve.FileSystem :=
  <["/tmp/proj/package.json" := Resolve.Regular]>
    (<["/tmp/proj/csvlinter.schema.json" := Resolve.Regular]>
       (<["/tmp/proj/sub/nested/file.csv" := Resolve.Regular]> ∅)).

Definition noFiles : string -> res ioReader :=
  fun _ => Err (Errorf "no such file or directory").

(** Ten bytes on standard input and a limit of eight: the header and one
    complete row fit, the short third line does not. *)
Definition tenBytes : string := "a,b" ++ nl ++ "1,2" ++ nl ++ "3" ++ nl.

(** A schema that declares property "age" as ["number", "integer"]. *)
Definition ageSchema : Schema.Validator (F := exactIntegers) :=
  {| Schema.schema :=
       {| Jsonschema.Properties := <["age" := ["number"; "integer"]]> ∅;
          Jsonschema.Validate := fun _ => Jsonschema.Valid |} |}.

(** ** Coercion of a field: the two orders *)

Module Coercion.

Import Jsonschema.

Section Spec.

Context `{F : Float64}.

(** What a declared type makes of the raw field, if anything. *)
Definition converts (raw : string) (t : string) : option value :=
  if String.eqb t "integer" then VInt <$> Atoi raw
  else if String.eqb t "number" then VFloat <$> ParseFloat raw
  else None.

(** The declared types tried in the order of their declaration: the
    first conversion that succeeds gives the value, the raw string is
    the fallback. *)
Definition coerceDeclaredOrder (types : list string) (raw : string) : value :=
  default (VString raw) (head (omap (converts raw) types)).

(** The order the specification words: integer first, then number,
    then the raw string, whatever the order of the declaration. *)
Definition coerceIntegerFirst (types : list string) (raw : string) : value :=
  match (if bool_decide ("integer" ∈ types) then Atoi raw else None) with
  | Some n => VInt n
  | None =>
      match (if bool_decide ("number" ∈ types) then ParseFloat raw else None) with
      | Some f => VFloat f
      | None => VString raw
      end
  end.

End Spec.

End Coercion.

(** * Properties *)

(** ** The row loop *)

Module ValidatorFacts.

Import Strconv Validator.
Local Open Scope nat_scope.

Section Engine.

Context `{F : Float64} {P Src : Type} `{API : !ParserAPI P Src}.

Implicit Types (v : Validator Src) (p : P) (row : Rows.Row).

Lemma validateRow_rowErrors v headers row errors :
  validateRow v headers row errors =
  match rowErrors v headers row with
  | Ok es => Ok (errors ++ es)
  | Err err => Err err
  end.
Proof.
  unfold rowErrors, validateRow.
  destruct (negb _); destruct (schemaValidator v); simpl;
    try destruct (Schema.ValidateRow _ _ _); simpl;
    rewrite ?app_nil_r, <- ?app_assoc; reflexivity.
Qed.

Lemma rowErrors_failFast b v headers row :
  rowErrors (withFailFast b v) headers row = rowErrors v headers row.
Proof. reflexivity. Qed.

(** With more fuel than input pending, the loop ends by itself and
    computes [processRows] on the rows read. *)
Lemma rowLoop_drain fuel v headers p errors totalRows :
  pending p < fuel ->
  rowLoop fuel v headers p errors totalRows =
  Some (processRows v headers (drain fuel p).1 (drain fuel p).2 errors totalRows).
Proof.
  revert p errors totalRows.
  induction fuel as [|f IH]; intros p errors totalRows Hlt; [lia|].
  cbn [rowLoop drain]. destruct (ReadRow p) as [[row|err] p'] eqn:E.
  - apply ReadRow_pending in E.
    destruct (drain f p') as [rows e] eqn:D. cbn [fst snd processRows].
    destruct (validateRow v headers row errors) as [errors'|err]; [|reflexivity].
    destruct (failFast v && (0 <? length errors')); [reflexivity|].
    rewrite IH by lia. now rewrite D.
  - cbn [fst snd processRows]. now destruct (String.eqb _ _).
Qed.

Lemma rowLoop_fuel v headers p errors totalRows :
  rowLoop (S (pending p)) v headers p errors totalRows =
  Some (processRows v headers (readRows p).1 (readRows p).2 errors totalRows).
Proof. apply rowLoop_drain. lia. Qed.

(** What a run returns, read off the document. *)
Definition finish v (duration : string) (r : res (list Error * nat)) : outcome (res Results) :=
  match r with
  | Err err => Returns (Err err)
  | Ok (errors, totalRows) =>
      Returns (Ok {| File := filePath v;
                     TotalRows := totalRows;
                     Errors := errors;
                     Warnings := [];
                     Duration := duration;
                     Valid := Nat.eqb (length errors) 0;
                     SchemaUsed := bool_decide (schemaValidator v <> None) |})
  end.

Lemma Validate_document v duration headers rows final :
  document v = Some (headers, rows, final) ->
  Validate v duration = finish v duration (processRows v headers rows final [] 0).
Proof.
  unfold document, Validate.
  destruct (NewParser (input v) (delimiter v)) as [[p0|?]|]; try discriminate.
  destruct (ValidateUTF8 p0) as [[?|] p1]; try discriminate.
  destruct (ReadHeaders p1) as [[hs|?] p2]; try discriminate.
  rewrite rowLoop_fuel. destruct (readRows p2) as [rows' final'].
  intros [= -> -> ->]. cbn [fst snd].
  destruct (processRows _ _ _ _ _ _) as [[errors n]|err]; reflexivity.
Qed.

(** A run that returns results either stopped at the encoding check
    or went through the rows of the document. *)
Lemma Validate_Ok_inv v duration R :
  Validate v duration = Returns (Ok R) ->
  (exists e, Errors R = [e] /\ Type_ e = "encoding" /\ Valid R = false
             /\ TotalRows R = 0 /\ SchemaUsed R = false)
  \/ (exists headers rows final,
         document v = Some (headers, rows, final)
         /\ processRows v headers rows final [] 0 = Ok (Errors R, TotalRows R)
         /\ Valid R = Nat.eqb (length (Errors R)) 0
         /\ SchemaUsed R = bool_decide (schemaValidator v <> None)).
Proof.
  intros HV.
  destruct (document v) as [[[headers rows] final]|] eqn:D.
  - right. exists headers, rows, final. split; [reflexivity|].
    rewrite (Validate_document _ _ _ _ _ D) in HV.
    destruct (processRows _ _ _ _ _ _) as [[errors n]|err]; [|discriminate].
    injection HV as <-. auto.
  - left. revert HV D. unfold document, Validate.
    destruct (NewParser (input v) (delimiter v)) as [[p0|?]|]; try discriminate.
    destruct (ValidateUTF8 p0) as [[err|] p1].
    + intros [= <-] _. eexists. simpl. auto.
    + destruct (ReadHeaders p1) as [[hs|?] p2]; try discriminate.
      destruct (readRows p2); discriminate.
Qed.

(** Every error of a row carries the line number of that row. *)
Lemma rowErrors_LineNumber v headers row es e :
  rowErrors v headers row = Ok es -> e ∈ es -> LineNumber e = Rows.LineNumber row.
Proof.
  unfold rowErrors, validateRow. intros H Hin.
  assert (G : forall l, e ∈ (if negb (Nat.eqb (length (Rows.Data row)) (length headers))
                             then [] ++ [structureError headers row] else [])
                            ++ map (schemaError row) l ->
              LineNumber e = Rows.LineNumber row).
  { intros l Hl. apply elem_of_app in Hl as [Hl|Hl].
    - destruct (negb _); [|inversion Hl].
      apply list_elem_of_singleton in Hl. now subst.
    - apply list_elem_of_fmap in Hl as (x & -> & _). reflexivity. }
  destruct (schemaValidator v) as [sv|].
  - destruct (Schema.ValidateRow sv headers (Rows.Data row)) as [l|]; [|discriminate].
    injection H as <-. eauto.
  - injection H as <-. apply (G []). simpl. now rewrite app_nil_r.
Qed.

(** The errors returned are those of the rows consumed, in order; a
    run that does not fail fast consumes every row. *)
Lemma processRows_Ok v headers rows final errors totalRows errors' n :
  processRows v headers rows final errors totalRows = Ok (errors', n) ->
  exists k errss,
    n = totalRows + k /\ k <= length rows
    /\ Forall2 (fun row es => rowErrors v headers row = Ok es) (take k rows) errss
    /\ errors' = errors ++ concat errss
    /\ (failFast v = false -> k = length rows).
Proof.
  revert errors totalRows errors' n.
  induction rows as [|row rest IH]; intros errors totalRows errors' n; simpl.
  - destruct (String.eqb _ _); [|discriminate]. intros [= <- <-].
    exists 0, []. simpl. rewrite app_nil_r.
    split; [lia|]. split; [lia|]. split; [constructor|]. split; [reflexivity|auto].
  - rewrite validateRow_rowErrors.
    destruct (rowErrors v headers row) as [es|] eqn:E; [|discriminate].
    destruct (failFast v && (0 <? length (errors ++ es))) eqn:C.
    + intros [= <- <-]. exists 1, [es]. simpl. rewrite take_0, app_nil_r.
      split; [lia|]. split; [lia|]. split; [repeat constructor; exact E|].
      split; [reflexivity|]. intros Hf. rewrite Hf in C. discriminate.
    + intros H. apply IH in H as (k & errss & -> & Hk & HF & -> & Hall).
      exists (S k), (es :: errss). simpl. rewrite <- app_assoc.
      split; [lia|]. split; [lia|]. split; [constructor; assumption|].
      split; [reflexivity|]. intros Hf. rewrite (Hall Hf). reflexivity.
Qed.

(** Failing fast: the run stops with the errors of the first row that
    has any. *)
Lemma processRows_failFast v headers rows final totalRows errors n :
  processRows (withFailFast false v) headers rows final [] totalRows = Ok (errors, n) ->
  errors <> [] ->
  exists pre row post es errss,
    rows = pre ++ row :: post
    /\ Forall (fun r => rowErrors v headers r = Ok []) pre
    /\ rowErrors v headers row = Ok es /\ es <> []
    /\ Forall2 (fun r es => rowErrors v headers r = Ok es) post errss
    /\ errors = es ++ concat errss
    /\ n = totalRows + length rows
    /\ processRows (withFailFast true v) headers rows final [] totalRows
       = Ok (es, totalRows + length pre + 1).
Proof.
  revert totalRows errors n.
  induction rows as [|row rest IH]; intros totalRows errors n; simpl.
  - destruct (String.eqb _ _); [|discriminate]. intros [= <- <-]. congruence.
  - rewrite !validateRow_rowErrors, !rowErrors_failFast.
    destruct (rowErrors v headers row) as [es|] eqn:E; [|discriminate].
    simpl. destruct es as [|e0 es].
    + simpl. intros H Hne. destruct (IH _ _ _ H Hne)
        as (pre & r & post & es & errss & -> & Hpre & Hr & Hes & Hpost & -> & -> & Hff).
      exists (row :: pre), r, post, es, errss. simpl.
      split; [reflexivity|]. split; [constructor; assumption|].
      split; [assumption|]. split; [assumption|]. split; [assumption|].
      split; [reflexivity|]. split; [lia|].
      rewrite Hff. f_equal. f_equal. lia.
    + simpl. intros H _. apply processRows_Ok in H as (k & errss & -> & Hk & HF & -> & Hall).
      specialize (Hall eq_refl). subst k. rewrite firstn_all in HF.
      exists [], row, rest, (e0 :: es), errss. simpl.
      split; [reflexivity|]. split; [constructor|].
      split; [exact E|]. split; [discriminate|]. split; [exact HF|].
      split; [reflexivity|]. split; [lia|].
      f_equal. f_equal. lia.
Qed.

End Engine.

End ValidatorFacts.

(** ** Line numbers of the buffering parser *)

Module ParserFacts.

Import Strconv Validator.
Local Open Scope nat_scope.

Lemma ReadRow_Ok p row p' :
  Parser.ReadRow p = (Ok row, p') ->
  Rows.LineNumber row = S (Parser.lineNumber p)
  /\ Parser.lineNumber p' = S (Parser.lineNumber p)
  /\ exists r, Csv.Read (Parser.reader p) = (Ok (Rows.Data row), r).
Proof.
  unfold Parser.ReadRow. destruct (Csv.Read (Parser.reader p)) as [[record|e] r].
  - intros [= <- <-]. simpl. eauto.
  - destruct e; discriminate.
Qed.

(** The [j]-th row read (from 0) is numbered [j + 1] past the lines
    read before. *)
Lemma drain_LineNumber fuel p rows final j row :
  drain (API := Parser.api) fuel p = (rows, final) ->
  rows !! j = Some row ->
  Rows.LineNumber row = Parser.lineNumber p + j + 1.
Proof.
  revert p rows j. induction fuel as [|f IH]; intros p rows j; simpl.
  - intros [= <- <-]. discriminate.
  - destruct (Parser.ReadRow p) as [[r|e] p'] eqn:E.
    + destruct (drain f p') as [rows' final'] eqn:D. intros [= <- <-].
      apply ReadRow_Ok in E as (H1 & H2 & _).
      destruct j as [|j]; simpl.
      * intros [= <-]. lia.
      * intros Hj. rewrite (IH _ _ _ D Hj). lia.
    + intros [= <- <-]. discriminate.
Qed.

Section Document.

Context `{F : Float64}.

Implicit Types (v : Validator ioReader).

(** Header on line 1, the [j]-th data row (from 0) on line [j + 2]. *)
Lemma document_LineNumber v headers rows final j row :
  document (API := Parser.api) v = Some (headers, rows, final) ->
  rows !! j = Some row ->
  Rows.LineNumber row = j + 2.
Proof.
  unfold document. simpl. unfold Parser.NewParser.
  destruct (Copy (input v)) as [buf [err|]]; [discriminate|].
  destruct (delimiterRune (delimiter v)) as [c|]; [|discriminate].
  unfold Parser.ValidateUTF8. simpl.
  destruct (negb (Utf8.Valid buf)); [discriminate|].
  unfold Parser.ReadHeaders. simpl.
  destruct (Csv.Read _) as [[hs|e] r]; [|destruct e; discriminate].
  destruct (readRows _) as [rows' final'] eqn:D.
  intros [= <- <- <-] Hj.
  rewrite (drain_LineNumber _ _ _ _ _ _ D Hj). simpl. lia.
Qed.

Lemma document_failFast b v :
  document (API := Parser.api) (withFailFast b v) = document (API := Parser.api) v.
Proof. reflexivity. Qed.

End Document.

End ParserFacts.

(** ** Errors grouped by row *)

Module LineFacts.

Import Strconv Validator.
Local Open Scope nat_scope.

Section Keys.

Context {A K : Type} `{EqDecision K} (key : A -> K).

Lemma filter_all (k : K) (xs : list A) :
  Forall (fun x => key x = k) xs -> filter (fun x => key x = k) xs = xs.
Proof.
  induction 1 as [|x xs Hx _ IH]; [reflexivity|].
  rewrite filter_cons_True by assumption. now rewrite IH.
Qed.

Lemma filter_none (k k' : K) (xs : list A) :
  k <> k' -> Forall (fun x => key x = k') xs -> filter (fun x => key x = k) xs = [].
Proof.
  intros Hne. induction 1 as [|x xs Hx _ IH]; [reflexivity|].
  rewrite filter_cons_False by congruence. exact IH.
Qed.

Lemma filter_concat_other (k : K) keys (xss : list (list A)) :
  Forall2 (fun k' xs => Forall (fun x => key x = k') xs) keys xss ->
  k ∉ keys ->
  filter (fun x => key x = k) (concat xss) = [].
Proof.
  induction 1 as [|k' xs keys xss Hx _ IH]; intros Hk; [reflexivity|].
  simpl. rewrite filter_app. apply not_elem_of_cons in Hk as [Hne Hk].
  rewrite (filter_none _ _ _ Hne Hx), (IH Hk). reflexivity.
Qed.

(** In a list of groups with pairwise distinct keys, filtering the
    concatenation by a key gives back that key's group. *)
Lemma filter_concat_key keys (xss : list (list A)) j k xs :
  Forall2 (fun k' xs => Forall (fun x => key x = k') xs) keys xss ->
  NoDup keys ->
  keys !! j = Some k -> xss !! j = Some xs ->
  filter (fun x => key x = k) (concat xss) = xs.
Proof.
  intros HF. revert j. induction HF as [|k' xs' keys xss Hx HF IH]; intros j ND Hk Hxs.
  - discriminate.
  - apply NoDup_cons in ND as [Hnotin ND]. simpl. rewrite filter_app.
    destruct j as [|j]; simpl in Hk, Hxs.
    + injection Hk as ->. injection Hxs as ->.
      rewrite (filter_all _ _ Hx), (filter_concat_other _ _ _ HF Hnotin).
      apply app_nil_r.
    + assert (Hne : k <> k')
        by (intros ->; apply Hnotin; eapply list_elem_of_lookup_2; eauto).
      rewrite (filter_none _ _ _ Hne Hx). simpl. eauto.
Qed.

End Keys.

Section Document.

Context `{F : Float64}.

Implicit Types (v : Validator ioReader).

Lemma document_lines v headers rows final :
  document (API := Parser.api) v = Some (headers, rows, final) ->
  Rows.LineNumber <$> rows = seq 2 (length rows).
Proof.
  intros D. apply (list_eq_same_length _ _ (length rows));
    [rewrite ?length_fmap, ?length_seq; reflexivity ..|].
  intros i x y Hi Hx Hy. rewrite list_lookup_fmap in Hx.
  destruct (rows !! i) as [row|] eqn:E; [|discriminate]. injection Hx as <-.
  apply lookup_seq in Hy as [-> _].
  rewrite (ParserFacts.document_LineNumber _ _ _ _ _ _ D E). lia.
Qed.

(** The errors of a run, filtered by the line of a consumed row, are
    the errors of that row. *)
Lemma errors_of_row v headers rows final k errss j row es :
  document (API := Parser.api) v = Some (headers, rows, final) ->
  Forall2 (fun row es => rowErrors v headers row = Ok es) (take k rows) errss ->
  j < k -> rows !! j = Some row -> rowErrors v headers row = Ok es ->
  filter (fun e => LineNumber e = j + 2) (concat errss) = es.
Proof.
  intros D HF Hj Hrow Hes.
  assert (Hl : take k rows !! j = Some row) by (rewrite lookup_take_lt; auto).
  destruct (Forall2_lookup_l _ _ _ _ _ HF Hl) as (es' & Hes' & Hr).
  assert (es' = es) by congruence. subst es'.
  apply (filter_concat_key LineNumber (Rows.LineNumber <$> take k rows) errss j (j + 2) es).
  - apply Forall2_fmap_l. eapply Forall2_impl; [exact HF|].
    intros r l Hrl. apply Forall_forall. intros e He.
    exact (ValidatorFacts.rowErrors_LineNumber _ _ _ _ _ Hrl He).
  - rewrite fmap_take, (document_lines _ _ _ _ D), take_seq. apply NoDup_seq.
  - rewrite list_lookup_fmap, Hl. simpl.
    now rewrite (ParserFacts.document_LineNumber _ _ _ _ _ _ D Hrow).
  - exact Hes'.
Qed.

End Document.

End LineFacts.

(** * The claims *)

(** ** Fail-fast *)

Lemma rowErrors_groups `{F : Float64} {Src : Type}
    (v : Validator Src) headers pre row post es errss :
  Forall (fun r => rowErrors v headers r = Ok []) pre ->
  rowErrors v headers row = Ok es ->
  Forall2 (fun r es => rowErrors v headers r = Ok es) post errss ->
  exists errss',
    Forall2 (fun r es => rowErrors v headers r = Ok es) (pre ++ row :: post) errss'
    /\ concat errss' = es ++ concat errss.
Proof.
  intros Hpre Hrow Hpost. induction Hpre as [|r pre Hr _ (errss' & HF & HC)].
  - exists (es :: errss). split; [constructor; assumption|reflexivity].
  - exists ([] :: errss'). split; [constructor; assumption|exact HC].
Qed.

(** C2. With fail-fast off, let a run return results with errors on two
    different lines. The same run with fail-fast on returns results whose
    errors are exactly the errors of the line of the first error, whose
    [TotalRows] counts the rows up to that line (the header being line 1),
    and is strictly less than the [TotalRows] of the run without
    fail-fast. *)
Theorem failfast_first_offending_row `{F : Float64} (v : Validator ioReader)
    (d0 d1 : string) (R0 : Results) (e1 e2 : Error) :
  Validate (API := Parser.api) (withFailFast false v) d0 = Returns (Ok R0) ->
  e1 ∈ Errors R0 -> e2 ∈ Errors R0 -> LineNumber e1 <> LineNumber e2 ->
  exists R1 first,
    Validate (API := Parser.api) (withFailFast true v) d1 = Returns (Ok R1)
    /\ head (Errors R0) = Some first
    /\ Errors R1 = filter (fun e => LineNumber e = LineNumber first) (Errors R0)
    /\ (TotalRows R1 + 1 = LineNumber first)%nat
    /\ (TotalRows R1 < TotalRows R0)%nat.
Proof.
  intros HV He1 He2 Hne.
  apply ValidatorFacts.Validate_Ok_inv in HV
    as [(e & HE & _)|(headers & rows & final & D & HP & _ & _)].
  { rewrite HE in He1, He2.
    apply list_elem_of_singleton in He1, He2. congruence. }
  rewrite ParserFacts.document_failFast in D.
  assert (Hnil : Errors R0 <> []) by (intros E; rewrite E in He1; inversion He1).
  destruct (ValidatorFacts.processRows_failFast _ _ _ _ _ _ _ HP Hnil)
    as (pre & row & post & es & errss & -> & Hpre & Hrow & Hes & Hpost & HE & HT & Hff).
  destruct (rowErrors_groups v headers pre row post es errss Hpre Hrow Hpost)
    as (errss' & HF & HC).
  assert (Hrowat : (pre ++ row :: post) !! length pre = Some row)
    by apply list_lookup_middle, eq_refl.
  assert (Hline : Rows.LineNumber row = (length pre + 2)%nat)
    by exact (ParserFacts.document_LineNumber _ _ _ _ _ _ D Hrowat).
  assert (Hfilter : filter (fun e => LineNumber e = (length pre + 2)%nat) (Errors R0) = es).
  { rewrite HE, <- HC.
    apply (LineFacts.errors_of_row v headers _ final (length (pre ++ row :: post))
             errss' (length pre) row es D); auto.
    - now rewrite firstn_all.
    - rewrite length_app. simpl. lia. }
  destruct es as [|first es']; [congruence|].
  assert (Hfirst : LineNumber first = (length pre + 2)%nat).
  { rewrite <- Hline. eapply ValidatorFacts.rowErrors_LineNumber; [exact Hrow|]. left. }
  eexists _, first.
  split.
  { rewrite (ValidatorFacts.Validate_document _ d1 headers _ final)
      by (rewrite ParserFacts.document_failFast; exact D).
    rewrite Hff. reflexivity. }
  cbn [Errors TotalRows].
  split; [now rewrite HE|].
  split; [now rewrite Hfirst, Hfilter|].
  split; [lia|].
  rewrite HT, length_app. simpl.
  destruct post as [|r post]; [|simpl; lia]. exfalso.
  inversion Hpost; subst. simpl in HE. rewrite app_nil_r in HE. rewrite HE in He1, He2.
  apply Hne.
  rewrite (ValidatorFacts.rowErrors_LineNumber _ _ _ _ _ Hrow He1).
  rewrite (ValidatorFacts.rowErrors_LineNumber _ _ _ _ _ Hrow He2). reflexivity.
Qed.

Lemma failfast_first_offending_row_witness :
  exists R1,
    Validate (API := Parser.api) (plainValidator twoShortRows true) "1ms" = Returns (Ok R1)
    /\ Errors R1 = [structureErrorAt 2 2 1]
    /\ TotalRows R1 = 1%nat.
Proof.
  destruct (failfast_first_offending_row (plainValidator twoShortRows false) "1ms" "1ms"
              {| File := "data.csv"; TotalRows := 3;
                 Errors := [structureErrorAt 2 2 1; structureErrorAt 3 2 1];
                 Warnings := []; Duration := "1ms"; Valid := false; SchemaUsed := false |}
              (structureErrorAt 2 2 1) (structureErrorAt 3 2 1))
    as (R1 & first & HV & Hhead & HE & HT & _).
  - vm_compute. reflexivity.
  - simpl. left.
  - simpl. right. left.
  - simpl. discriminate.
  - exists R1. split; [exact HV|]. simpl in Hhead. injection Hhead as <-.
    split; [exact HE|]. simpl in HT. lia.
Defined.

(** ** Errors of a consumed row *)



(** ** Structure errors *)



(** ** Structure and schema errors of a misaligned row *)



(** ** Encoding failure and empty input *)

(** C1. For an input that can be read and a non-empty delimiter: when
    the input is not valid UTF-8, [Validate] returns results, not an
    error, with [Valid = false] and one error, of type "encoding"; when the
    input is empty (and the delimiter one the csv reader accepts),
    [Validate] returns no results but the error "failed to read headers:
    empty input: no headers found". *)
Theorem encoding_failure_and_empty_input :
  (forall (F : Float64) (v : Validator ioReader) (d : string) (c : N),
      failure (input v) = None ->
      delimiterRune (delimiter v) = Some c ->
      Utf8.Valid (data (input v)) = false ->
      exists R e,
        Validate (API := Parser.api) v d = Returns (Ok R)
        /\ Valid R = false /\ Errors R = [e] /\ Type_ e = "encoding")
  /\ (forall (F : Float64) (v : Validator ioReader) (d : string) (c : N),
      failure (input v) = None ->
      delimiterRune (delimiter v) = Some c ->
      Csv.validDelim c = true ->
      data (input v) = [] ->
      Validate (API := Parser.api) v d
      = Returns (Err (Errorf "failed to read headers: empty input: no headers found"))).
Proof.
  split.
  - intros F v d c Hf Hc Hv. unfold Validate. simpl. unfold Parser.NewParser, Copy.
    rewrite Hf, Hc. unfold Parser.ValidateUTF8. simpl. rewrite Hv. simpl.
    eexists _, _. split; [reflexivity|]. simpl. auto.
  - intros F v d c Hf Hc Hd He. unfold Validate. simpl. unfold Parser.NewParser, Copy.
    rewrite Hf, Hc, He. unfold Parser.ValidateUTF8. simpl.
    unfold Parser.ReadHeaders, Csv.Read, Csv.readRecord. simpl. rewrite Hd. reflexivity.
Qed.

Lemma encoding_failure_and_empty_input_witness :
  (exists R e,
      Validate (API := Parser.api) (bytesValidator invalidBytes None) "1ms" = Returns (Ok R)
      /\ Valid R = false /\ Errors R = [e] /\ Type_ e = "encoding")
  /\ Validate (API := Parser.api) (bytesValidator [] None) "1ms"
     = Returns (Err (Errorf "failed to read headers: empty input: no headers found")).
Proof.
  split.
  - exact (proj1 encoding_failure_and_empty_input exactIntegers
             (bytesValidator invalidBytes None) "1ms" 44%N eq_refl eq_refl eq_refl).
  - exact (proj2 encoding_failure_and_empty_input exactIntegers
             (bytesValidator [] None) "1ms" 44%N eq_refl eq_refl eq_refl eq_refl).
Defined.

(** ** SchemaUsed *)

(** C9, at an input that is not valid UTF-8 with a schema validator
    supplied: the results report [SchemaUsed = false]. *)
Theorem schema_used_lost_on_encoding_failure :
  schemaValidator (bytesValidator invalidBytes (Some acceptAll)) = Some acceptAll
  /\ exists R,
       Validate (API := Parser.api) (bytesValidator invalidBytes (Some acceptAll)) "1ms"
       = Returns (Ok R)
       /\ SchemaUsed R = false.
Proof. split; [reflexivity|]. eexists. split; [vm_compute; reflexivity|reflexivity]. Qed.

(** On the way through the rows, [SchemaUsed] tells whether a schema
    validator was supplied. *)
Lemma schema_used_after_rows `{F : Float64} (v : Validator ioReader) (d : string) (R : Results)
    headers rows final :
  Validate (API := Parser.api) v d = Returns (Ok R) ->
  document (API := Parser.api) v = Some (headers, rows, final) ->
  SchemaUsed R = true <-> schemaValidator v <> None.
Proof.
  intros HV D. rewrite (ValidatorFacts.Validate_document _ _ _ _ _ D) in HV.
  destruct (processRows _ _ _ _ _ _) as [[errors n]|]; [|discriminate].
  injection HV as <-. simpl. apply bool_decide_eq_true.
Qed.

(** ** UTF-8 validation *)

(** C8, at a valid file whose two-byte character straddles the block
    boundary: the parser that reads the file in blocks rejects it, and the
    engine reports an encoding error for the valid file. *)
Theorem blockwise_validation_rejects_valid_file :
  Utf8.Valid straddling = true
  /\ FileParser.NewParser (fun _ => Some straddling) "data.csv" ","
     = Returns (Ok (fileParserOn straddling))
  /\ (FileParser.ValidateUTF8 (fileParserOn straddling)).1
     = Some (Errorf "file contains invalid UTF-8 encoding")
  /\ Validate (F := exactIntegers) (API := FileParser.api (fun _ => Some straddling))
       (New "data.csv" "," None false) "1ms"
     = Returns (Ok {| File := "data.csv"; TotalRows := 0;
                      Errors := [{| LineNumber := 0; Field := "";
                                    Message := "file contains invalid UTF-8 encoding";
                                    Value := ""; Type_ := "encoding" |}];
                      Warnings := []; Duration := "1ms"; Valid := false;
                      SchemaUsed := false |}).
Proof. repeat split; vm_compute; reflexivity. Qed.

(** The buffering parser validates its whole buffer at once: it accepts
    exactly the valid inputs, and before any row is read. *)
Lemma buffered_validation_exact (p : Parser.Parser) :
  (Parser.ValidateUTF8 p).1 = None <-> Utf8.Valid (Parser.buffer p) = true.
Proof.
  unfold Parser.ValidateUTF8. destruct (Utf8.Valid (Parser.buffer p)); simpl; split;
    congruence.
Qed.

(** ** Schema resolution *)

(** C4, at a project root marked by a package manifest: the walk stops
    at the project root before looking at the schema that lies there. *)
Theorem project_root_schema_not_found :
  Resolve.isProjectRoot projectTree (Filepath.Clean "/tmp/proj") = true
  /\ Resolve.fileExists projectTree (Filepath.Clean "/tmp/proj/csvlinter.schema.json") = true
  /\ Resolve.ResolveSchema projectTree "/tmp/proj/sub/nested/file.csv" = "".
Proof. repeat split; vm_compute; reflexivity. Qed.

(** A version-control directory is no marker: [fileExists] wants a
    regular file. The walk goes on past such a project root. *)
Lemma git_directory_is_no_marker :
  let tree : Resolve.FileSystem :=
    <["/tmp/proj/.git" := Resolve.Directory]>
      (<["/tmp/csvlinter.schema.json" := Resolve.Regular]>
         (<["/tmp/proj/sub/file.csv" := Resolve.Regular]> ∅)) in
  Resolve.isProjectRoot tree (Filepath.Clean "/tmp/proj") = false
  /\ Resolve.ResolveSchema tree "/tmp/proj/sub/file.csv" = "/tmp/csvlinter.schema.json".
Proof. repeat split; vm_compute; reflexivity. Qed.

(** ** The size limit on standard input *)

(** C5 fails: input beyond the limit is cut off without an error, and
    what is left is validated and found valid. *)
Lemma stdin_over_limit_is_truncated :
  (8 < length (bytes_of tenBytes))%nat
  /\ Cmd.validateAction (F := exactIntegers) (NewReader (bytes_of tenBytes)) noFiles
       "-" "," None false 8 "1ms"
     = Returns (Ok {| File := "STDIN"; TotalRows := 1; Errors := []; Warnings := [];
                      Duration := "1ms"; Valid := true; SchemaUsed := false |})
  /\ Cmd.validateAction (F := exactIntegers) (NewReader (bytes_of tenBytes)) noFiles
       "-" "," None false Cmd.defaultMaxSize "1ms"
     = Returns (Ok {| File := "STDIN"; TotalRows := 2; Errors := [structureErrorAt 3 2 1];
                      Warnings := []; Duration := "1ms"; Valid := false; SchemaUsed := false |}).
Proof. split; [vm_compute; lia|]. split; vm_compute; reflexivity. Qed.

Lemma LimitReader_readable (stdin : ioReader) (maxSize : Z) :
  failure stdin = None ->
  LimitReader stdin maxSize = NewReader (take (Z.to_nat maxSize) (data stdin)).
Proof.
  intros Hf. unfold LimitReader, NewReader. rewrite Hf. now destruct (_ <? _)%nat.
Qed.

(** C5, amended. The limit is 10 MiB by default. For standard input that
    can be read, the parser is given the first [maxSize] bytes and no
    more, and the command returns what the engine returns on those bytes
    taken as the whole input, under the name STDIN: its results as they
    are, its error behind "Error during validation: ", its panic. Nothing
    else distinguishes an input that is longer than the limit: no error of
    the command tells of the limit. *)
Theorem stdin_limited_to_prefix `{F : Float64} (stdin : ioReader) (open : string -> res ioReader)
    (delimiter : string) (schemaValidator : option Schema.Validator) (failFast : bool)
    (maxSize : Z) (duration : string) :
  failure stdin = None ->
  let prefix := take (Z.to_nat maxSize) (data stdin) in
  let onPrefix :=
    Validate (API := Parser.api)
      (Cmd.New (NewReader prefix) "STDIN" delimiter schemaValidator failFast) duration in
  let command :=
    Cmd.validateAction stdin open "-" delimiter schemaValidator failFast maxSize duration in
  Cmd.defaultMaxSize = 10485760%Z
  /\ (length prefix <= Z.to_nat maxSize)%nat
  /\ (forall p, Parser.NewParser (LimitReader stdin maxSize) delimiter = Returns (Ok p) ->
        Parser.buffer p = prefix)
  /\ (forall R, onPrefix = Returns (Ok R) -> command = Returns (Ok R))
  /\ (forall err, onPrefix = Returns (Err err) ->
        command = Returns (Err (Errorf ("Error during validation: " ++ errorText err))))
  /\ (onPrefix = Panics -> command = Panics).
Proof.
  intros Hf prefix onPrefix command.
  assert (E : command = match onPrefix with
                        | Panics => Panics
                        | Returns (Err err) =>
                            Returns (Err (Errorf ("Error during validation: " ++ errorText err)))
                        | Returns (Ok R) => Returns (Ok R)
                        end).
  { unfold command, onPrefix, prefix, Cmd.validateAction, Cmd.selectInput.
    cbn [String.eqb Ascii.eqb Bool.eqb]. now rewrite (LimitReader_readable stdin maxSize Hf). }
  split; [reflexivity|]. split.
  { unfold prefix. rewrite length_take. lia. }
  split.
  { intros p. rewrite (LimitReader_readable stdin maxSize Hf).
    unfold Parser.NewParser, Copy. cbn [data failure NewReader].
    destruct (delimiterRune delimiter); [|discriminate]. now intros [= <-]. }
  rewrite E. split; [|split].
  - now intros R ->.
  - now intros err ->.
  - now intros ->.
Qed.

Lemma stdin_limited_to_prefix_witness :
  take 8 (bytes_of tenBytes) = bytes_of ("a,b" ++ nl ++ "1,2" ++ nl)
  /\ Cmd.validateAction (F := exactIntegers) (NewReader (bytes_of tenBytes)) noFiles
       "-" "," None false 8 "1ms"
     = Returns (Ok {| File := "STDIN"; TotalRows := 1; Errors := []; Warnings := [];
                      Duration := "1ms"; Valid := true; SchemaUsed := false |}).
Proof.
  split; [reflexivity|].
  apply (proj1 (proj2 (proj2 (proj2
           (stdin_limited_to_prefix (F := exactIntegers) (NewReader (bytes_of tenBytes))
              noFiles "," None false 8 "1ms" eq_refl))))).
  vm_compute. reflexivity.
Defined.

(** ** What the reader surfaces *)

(** C7 fails: of the three lines "a,b", "" and "1,2" the blank one is not
    surfaced, and the row of the third line is numbered 2. *)
Lemma blank_line_not_surfaced :
  document (API := Parser.api) (plainValidator ("a,b" ++ nl ++ nl ++ "1,2" ++ nl) false)
  = Some (["a"; "b"], [Rows.mkRow 2 ["1"; "2"] ["a"; "b"]], EOF).
Proof. vm_compute. reflexivity. Qed.

Lemma drain_records fuel (p : Parser.Parser) :
  (drain (API := Parser.api) fuel p).1
  = imap (fun j record => Rows.mkRow (Parser.lineNumber p + j + 1) record (Parser.headers p))
      (Csv.drain fuel (Parser.reader p)).1.
Proof.
  revert p. induction fuel as [|f IH]; intros p; [reflexivity|].
  cbn [drain Csv.drain]. change (ReadRow p) with (Parser.ReadRow p). unfold Parser.ReadRow.
  destruct (Csv.Read (Parser.reader p)) as [[record|e] r].
  - specialize (IH {| Parser.reader := r; Parser.lineNumber := S (Parser.lineNumber p);
                      Parser.headers := Parser.headers p; Parser.buffer := Parser.buffer p;
                      Parser.delimiter := Parser.delimiter p |}).
    destruct (drain f _) as [rows e1]. destruct (Csv.drain f r) as [records e2] eqn:D.
    simpl in IH. rewrite D in IH. simpl in IH. simpl. rewrite IH. f_equal.
    + f_equal. lia.
    + apply imap_ext. intros j x _. simpl. f_equal. lia.
  - destruct e; reflexivity.
Qed.

(** *** Blank lines and empty fields

    What follows is about the csv reader at any point of its reading: a
    blank line next in the input, a record once read, and the line [""]. *)

Lemma nextLine_fuel fuel (r : Csv.Reader) :
  (length (Csv.input r) < fuel)%nat -> Csv.nextLine (S fuel) r = Csv.nextLine fuel r.
Proof.
  revert r. induction fuel as [|f IH]; intros r Hlt; [lia|].
  cbn [Csv.nextLine]. destruct (Csv.readLine r) as [[ln eof] r'] eqn:RL.
  apply CsvFacts.readLine_spec in RL as (_ & Hless & _).
  destruct (negb eof && Nat.eqb (length ln) (Csv.lengthNL ln)) eqn:C; [|reflexivity].
  apply andb_prop in C as [C _]. apply negb_true_iff in C.
  specialize (Hless C). apply IH. lia.
Qed.

(** The csv reader skips a blank line, ended by LF or by CR LF: reading
    with the blank line ahead is reading behind it. *)
Lemma Read_skips_blank_line (c : N) (blank rest : bytes) (n : nat) :
  Csv.validDelim c = true ->
  blank = [LF] \/ blank = [CR; LF] ->
  Csv.Read (Csv.mkReader c (blank ++ rest) n) = Csv.Read (Csv.mkReader c rest (S n)).
Proof.
  intros Hc Hblank.
  assert (E : Csv.readRecord (Csv.mkReader c (blank ++ rest) n)
              = Csv.readRecord (Csv.mkReader c rest (S n))).
  { unfold Csv.readRecord. cbn [Csv.Comma Csv.input]. rewrite Hc. cbn [negb].
    assert (N : Csv.nextLine (S (length (blank ++ rest))) (Csv.mkReader c (blank ++ rest) n)
                = Csv.nextLine (S (length rest)) (Csv.mkReader c rest (S n))).
    { destruct Hblank; subst blank.
      - reflexivity.
      - change (Csv.nextLine (S (length ([CR; LF] ++ rest))) (Csv.mkReader c ([CR; LF] ++ rest) n))
          with (Csv.nextLine (S (S (length rest))) (Csv.mkReader c rest (S n))).
        apply nextLine_fuel. simpl. lia. }
    now rewrite N. }
  rewrite !CsvFacts.Read_readRecord in E. now injection E.
Qed.

Lemma parse_fields_nonempty fuel :
  (forall recLine ln r pos fields out r',
      Csv.parseField fuel recLine ln r pos fields = Some (Ok out, r') -> out <> [])
  /\ (forall recLine ln r pos fields cur out r',
      Csv.parseQuoted fuel recLine ln r pos fields cur = Some (Ok out, r') -> out <> []).
Proof.
  induction fuel as [|f [IHf IHq]]; [split; intros; discriminate|].
  split.
  - intros recLine ln r pos fields out r'. cbn [Csv.parseField].
    destruct (Csv.startsWithQuote ln); [apply IHq|].
    destruct (Csv.IndexByte _ QUOTE); [discriminate|].
    destruct (Csv.IndexRune ln (Csv.Comma r)); [apply IHf|].
    intros [= <- _]. now destruct fields.
  - intros recLine ln r pos fields cur out r'. cbn [Csv.parseQuoted].
    destruct (Csv.IndexByte ln QUOTE).
    + destruct (Csv.startsWithQuote _); [apply IHq|].
      destruct (Csv.hasPrefix _ _); [apply IHf|].
      destruct (Nat.eqb _ _); [|discriminate].
      intros [= <- _]. now destruct fields.
    + destruct (0 <? length ln)%nat; [|discriminate].
      destruct (Csv.readLine r) as [[ln' eof] r1]. apply IHq.
Qed.

(** No record of the csv reader is without fields. *)
Lemma Read_record_nonempty (r : Csv.Reader) record r' :
  Csv.Read r = (Ok record, r') -> record <> [].
Proof.
  intros E. pose proof (CsvFacts.Read_readRecord r) as R. rewrite E in R.
  unfold Csv.readRecord in R.
  destruct (negb (Csv.validDelim (Csv.Comma r))); [discriminate|].
  destruct (Csv.nextLine _ r) as [[[ln [|]] r1]|]; try discriminate.
  destruct (Csv.parseField _ _ _ _ _ _) as [[[fields|e] r2]|] eqn:P; try discriminate.
  apply (proj1 (parse_fields_nonempty _)) in P.
  injection R as <- _. now destruct fields.
Qed.

Lemma comma_not_LF (c : N) :
  Csv.validDelim c = true -> Csv.hasPrefix (Utf8.EncodeRune c) [LF] = false.
Proof.
  intros Hc.
  assert (Hne : c <> 10%N).
  { unfold Csv.validDelim in Hc. intros ->. discriminate. }
  unfold Utf8.EncodeRune.
  destruct (c <=? 0x7F)%N eqn:Small.
  - cbn [Csv.hasPrefix]. rewrite andb_true_r.
    destruct (Byte.eqb (Utf8.byte_of c) LF) eqn:B; [|reflexivity].
    exfalso. apply Hne. apply Byte.byte_dec_bl in B. apply N.leb_le in Small.
    unfold Utf8.byte_of in B. rewrite N.mod_small in B by lia.
    destruct (Byte.of_N c) as [b|] eqn:O.
    + apply Byte.to_of_N in O. subst b. rewrite <- O. reflexivity.
    + apply Byte.of_N_None_iff in O. lia.
  - repeat match goal with |- context [if ?b then _ else _] => destruct b end;
      cbn [Csv.hasPrefix]; apply andb_false_r.
Qed.

Lemma parseQuoted_closing fuel recLine (r : Csv.Reader) pos fields cur :
  Csv.hasPrefix (Utf8.EncodeRune (Csv.Comma r)) [LF] = false ->
  Csv.parseQuoted (S fuel) recLine [QUOTE; LF] r pos fields cur = Some (Ok (fields ++ [cur]), r).
Proof.
  intros H. cbn [Csv.parseQuoted].
  change (Csv.IndexByte [QUOTE; LF] QUOTE) with (Some 0%nat).
  cbn [take drop Nat.add Csv.quoteLen app]. rewrite app_nil_r.
  change (Csv.startsWithQuote [LF]) with false. cbn iota. rewrite H.
  reflexivity.
Qed.

(** The line [""] is a record of one empty field. *)
Lemma Read_quoted_empty_line (c : N) (rest : bytes) (n : nat) :
  Csv.validDelim c = true ->
  Csv.Read (Csv.mkReader c (QUOTE :: QUOTE :: LF :: rest) n)
  = (Ok [""], Csv.mkReader c rest (S n)).
Proof.
  intros Hc. pose proof (comma_not_LF c Hc) as HLF.
  assert (E : Csv.readRecord (Csv.mkReader c (QUOTE :: QUOTE :: LF :: rest) n)
              = Some (Ok [""], Csv.mkReader c rest (S n))).
  { unfold Csv.readRecord. cbn [Csv.Comma Csv.input]. rewrite Hc. cbn [negb].
    change (Csv.nextLine (S (length (QUOTE :: QUOTE :: LF :: rest)))
              (Csv.mkReader c (QUOTE :: QUOTE :: LF :: rest) n))
      with (Some ([QUOTE; QUOTE; LF], false, Csv.mkReader c rest (S n))).
    cbn iota. cbn [Csv.numLine Csv.input length Nat.add].
    change (Csv.parseField (S (S (S (S (length rest))))) (S n) [QUOTE; QUOTE; LF]
              (Csv.mkReader c rest (S n)) (Csv.mkPos (S n) 1) [])
      with (Csv.parseQuoted (S (S (S (length rest)))) (S n) [QUOTE; LF]
              (Csv.mkReader c rest (S n)) (Csv.mkPos (S n) 2) [] []).
    rewrite parseQuoted_closing by exact HLF. reflexivity. }
  rewrite CsvFacts.Read_readRecord in E. now injection E.
Qed.

Lemma drain_enough {P Src : Type} `{API : !ParserAPI P Src} f1 f2 (p : P) :
  (pending p < f1)%nat -> (pending p < f2)%nat -> drain f1 p = drain f2 p.
Proof.
  revert f2 p. induction f1 as [|f1 IH]; intros [|f2] p H1 H2; try lia.
  cbn [drain]. destruct (ReadRow p) as [[row|e] p'] eqn:E; [|reflexivity].
  apply ReadRow_pending in E. rewrite (IH f2 p') by lia. reflexivity.
Qed.

(** The parser [p] with its csv reader moved behind one line, to [rest];
    the counter of the rows is not touched. *)
Definition pastLine (rest : bytes) (p : Parser.Parser) : Parser.Parser :=
  Parser.setReader
    (Csv.mkReader (Csv.Comma (Parser.reader p)) rest (S (Csv.numLine (Parser.reader p)))) p.

(** C7, amended. The rows [ReadRow] delivers are the records of the csv
    reader, each of them, in their order, numbered in sequence, none held
    back. A blank line, ended by LF or by CR LF, is no record: wherever
    the reading stands, with a blank line next in the input the headers,
    the next row and all rows to come are those read behind the blank
    line, with the same numbers; and no row is without fields. A record
    whose only field is empty, as the line [""] gives it, is a row like any
    other, for which [IsEmpty] holds. *)
Theorem rows_are_csv_records :
  (forall p : Parser.Parser,
      (readRows (API := Parser.api) p).1
      = imap (fun j record =>
                Rows.mkRow (Parser.lineNumber p + j + 1) record (Parser.headers p))
          (Csv.records (Parser.reader p)).1)
  /\ (forall (p : Parser.Parser) (blank rest : bytes),
        Csv.validDelim (Csv.Comma (Parser.reader p)) = true ->
        blank = [LF] \/ blank = [CR; LF] ->
        Csv.input (Parser.reader p) = blank ++ rest ->
        Parser.ReadHeaders p = Parser.ReadHeaders (pastLine rest p)
        /\ Parser.ReadRow p = Parser.ReadRow (pastLine rest p)
        /\ readRows (API := Parser.api) p = readRows (API := Parser.api) (pastLine rest p))
  /\ (forall (p : Parser.Parser) row p',
        Parser.ReadRow p = (Ok row, p') ->
        Rows.Data row <> [] /\ Rows.LineNumber row = S (Parser.lineNumber p))
  /\ (forall (p : Parser.Parser) (rest : bytes),
        Csv.validDelim (Csv.Comma (Parser.reader p)) = true ->
        Csv.input (Parser.reader p) = QUOTE :: QUOTE :: LF :: rest ->
        let row := Rows.mkRow (S (Parser.lineNumber p)) [""] (Parser.headers p) in
        (Parser.ReadRow p).1 = Ok row
        /\ Parser.reader (Parser.ReadRow p).2 = Parser.reader (pastLine rest p)
        /\ Rows.IsEmpty row = true)
  /\ document (API := Parser.api) (plainValidator ("a" ++ nl ++ dq ++ dq ++ nl ++ "b") false)
     = Some (["a"], [Rows.mkRow 2 [""] ["a"]; Rows.mkRow 3 ["b"] ["a"]], EOF)
  /\ Rows.IsEmpty (Rows.mkRow 2 [""] ["a"]) = true.
Proof.
  split; [intros p; apply drain_records|].
  split.
  { intros [[c input n] k hs buf d] blank rest Hc Hblank Hin.
    cbn [Parser.reader Csv.Comma Csv.input] in Hc, Hin. subst input.
    pose proof (Read_skips_blank_line c blank rest n Hc Hblank) as E.
    assert (R : Parser.ReadRow (Parser.mkParser (Csv.mkReader c (blank ++ rest) n) k hs buf d)
                = Parser.ReadRow
                    (pastLine rest (Parser.mkParser (Csv.mkReader c (blank ++ rest) n) k hs buf d))).
    { unfold Parser.ReadRow, pastLine, Parser.setReader.
      cbn [Parser.reader Parser.lineNumber Parser.headers Parser.buffer Parser.delimiter
           Csv.Comma Csv.numLine]. now rewrite E. }
    split; [|split; [exact R|]].
    - unfold Parser.ReadHeaders, pastLine, Parser.setReader.
      cbn [Parser.reader Parser.lineNumber Parser.headers Parser.buffer Parser.delimiter
           Csv.Comma Csv.numLine]. now rewrite E.
    - pose proof (Parser.buffer_ReadRow_pending
                    (pastLine rest (Parser.mkParser (Csv.mkReader c (blank ++ rest) n) k hs buf d)))
        as Hless.
      assert (L : (Parser.pending
                     (pastLine rest (Parser.mkParser (Csv.mkReader c (blank ++ rest) n) k hs buf d))
                   <= Parser.pending (Parser.mkParser (Csv.mkReader c (blank ++ rest) n) k hs buf d))%nat).
      { unfold Parser.pending, pastLine, Parser.setReader. cbn [Parser.reader Csv.input].
        rewrite length_app. lia. }
      unfold readRows. cbn [drain].
      change (@ReadRow _ _ Parser.api) with Parser.ReadRow.
      change (@pending _ _ Parser.api) with Parser.pending.
      rewrite R.
      destruct (Parser.ReadRow (pastLine rest _)) as [[row|e] p1]; [|reflexivity].
      specialize (Hless row p1 eq_refl).
      rewrite (drain_enough (API := Parser.api) _
                 (Parser.pending
                    (pastLine rest (Parser.mkParser (Csv.mkReader c (blank ++ rest) n) k hs buf d)))
                 p1); [reflexivity| |];
        change (@pending _ _ Parser.api) with Parser.pending; lia. }
  split.
  { intros p row p'. unfold Parser.ReadRow.
    destruct (Csv.Read (Parser.reader p)) as [[record|e] r] eqn:E.
    - intros [= <- _]. split; [|reflexivity].
      cbn [Rows.Data]. eapply Read_record_nonempty, E.
    - destruct e; discriminate. }
  split.
  { intros [[c input n] k hs buf d] rest Hc Hin.
    cbn [Parser.reader Csv.Comma Csv.input] in Hc, Hin. subst input.
    unfold Parser.ReadRow, pastLine, Parser.setReader.
    cbn [Parser.reader Parser.lineNumber Parser.headers Parser.buffer Parser.delimiter
         Csv.Comma Csv.numLine].
    rewrite (Read_quoted_empty_line c rest n Hc). repeat split. }
  split; vm_compute; reflexivity.
Qed.

Lemma rows_are_csv_records_witness :
  readRows (API := Parser.api)
    (Parser.mkParser (Csv.NewReader (bytes_of (nl ++ "1,2" ++ nl))) 1 ["a"; "b"] [] 44)
  = readRows (API := Parser.api)
      (Parser.mkParser (Csv.mkReader 44 (bytes_of ("1,2" ++ nl)) 1) 1 ["a"; "b"] [] 44).
Proof.
  exact (proj2 (proj2 (proj1 (proj2 rows_are_csv_records)
           (Parser.mkParser (Csv.NewReader (bytes_of (nl ++ "1,2" ++ nl))) 1 ["a"; "b"] [] 44)
           [LF] (bytes_of ("1,2" ++ nl)) eq_refl (or_introl eq_refl) eq_refl))).
Defined.

(** ** Coercion of a field *)

Module CoercionFacts.

Import Jsonschema Coercion.

Section Spec.

Context `{F : Float64}.

Lemma coerce_declared_order types raw :
  Schema.coerce types raw = coerceDeclaredOrder types raw.
Proof.
  unfold coerceDeclaredOrder. induction types as [|t types IH]; [reflexivity|].
  simpl. unfold converts at 1.
  destruct (String.eqb t "integer").
  - destruct (Atoi raw); simpl; [reflexivity|exact IH].
  - destruct (String.eqb t "number"); [|exact IH].
    destruct (ParseFloat raw); simpl; [reflexivity|exact IH].
Qed.

Lemma buildRow_other (v : Schema.Validator) headers data m header :
  header ∉ headers -> Schema.buildRow v headers data m !! header = m !! header.
Proof.
  revert data m. induction headers as [|h hs IH]; intros data m Hnot; [reflexivity|].
  apply not_elem_of_cons in Hnot as [Hne Hnot].
  destruct data as [|raw ds]; [reflexivity|]. simpl.
  rewrite IH by assumption. now apply lookup_insert_ne.
Qed.

(** The value stored for a header is made from the last column that
    carries it. *)
Lemma buildRow_lookup (v : Schema.Validator) headers data m i header raw :
  headers !! i = Some header -> data !! i = Some raw ->
  (forall j, (i < j)%nat -> headers !! j <> Some header) ->
  Schema.buildRow v headers data m !! header = Some (Schema.fieldValue v header raw).
Proof.
  revert data m i. induction headers as [|h hs IH]; intros data m i Hh Hd Hlast.
  - discriminate.
  - destruct data as [|r ds]; [destruct i; discriminate|].
    destruct i as [|i]; simpl in Hh, Hd.
    + injection Hh as ->. injection Hd as ->. simpl.
      rewrite buildRow_other; [apply lookup_insert_eq|].
      intros Hin. apply list_elem_of_lookup in Hin as [j Hj].
      apply (Hlast (S j)); [lia|exact Hj].
    + simpl. apply (IH ds _ i Hh Hd).
      intros j Hj. apply (Hlast (S j)). lia.
Qed.

End Spec.

End CoercionFacts.

(** C3 fails: for a property declared ["number", "integer"] the field "30"
    becomes the float 30, where integer first would give the integer 30. *)
Lemma number_declared_first_wins :
  Schema.coerce (F := exactIntegers) ["number"; "integer"] "30"
  = Jsonschema.VFloat (F := exactIntegers) 30%Z
  /\ Coercion.coerceIntegerFirst (F := exactIntegers) ["number"; "integer"] "30"
     = Jsonschema.VInt 30%Z.
Proof. split; reflexivity. Qed.

(** C3, amended. The coercion tries the declared types in the order the
    schema declares them: the first of them that is "integer" or "number"
    and whose conversion of the raw field succeeds gives the value, and
    the raw string is the fallback. In a row as long as the headers, this
    is the value validated for a header the schema declares (made from the
    last column that carries the header). *)
Theorem coercion_in_declared_order :
  (forall (F : Float64) (types : list string) (raw : string),
      Schema.coerce types raw = Coercion.coerceDeclaredOrder types raw)
  /\ (forall (F : Float64) (v : Schema.Validator) headers data i header raw types,
      length headers = length data ->
      headers !! i = Some header -> data !! i = Some raw ->
      (forall j, (i < j)%nat -> headers !! j <> Some header) ->
      Jsonschema.Properties (Schema.schema v) !! header = Some types ->
      Schema.buildRow v headers data ∅ !! header
      = Some (Coercion.coerceDeclaredOrder types raw)).
Proof.
  split.
  - intros F types raw. apply CoercionFacts.coerce_declared_order.
  - intros F v headers data i header raw types _ Hh Hd Hlast Hp.
    rewrite (CoercionFacts.buildRow_lookup v headers data ∅ i header raw Hh Hd Hlast).
    unfold Schema.fieldValue. rewrite Hp. f_equal. apply CoercionFacts.coerce_declared_order.
Qed.

Lemma coercion_in_declared_order_witness :
  Schema.buildRow ageSchema ["name"; "age"] ["John"; "30"] ∅ !! "age"
  = Some (Jsonschema.VFloat (F := exactIntegers) 30%Z).
Proof.
  refine (proj2 coercion_in_declared_order exactIntegers ageSchema ["name"; "age"]
            ["John"; "30"] 1%nat "age" "30" ["number"; "integer"] eq_refl eq_refl eq_refl _ _).
  - intros [|[|[|j]]] Hj; simpl; try discriminate; lia.
  - reflexivity.
Defined.

(** * Further properties *)

(** ** The engine: what every run keeps *)

(** X1. Whatever the parser, results name the validator's file, carry the
    duration handed in and no warnings, and are valid exactly when they
    hold no error. *)
Theorem results_invariants `{F : Float64} {P Src : Type} `{API : !ParserAPI P Src}
    (v : Validator Src) (d : string) (R : Results) :
  Validate v d = Returns (Ok R) ->
  File R = filePath v /\ Duration R = d /\ Warnings R = []
  /\ (Valid R = true <-> Errors R = []).
Proof.
  unfold Validate.
  destruct (NewParser (input v) (delimiter v)) as [[p0|?]|]; try discriminate.
  destruct (ValidateUTF8 p0) as [[err|] p1].
  - intros [= <-]. simpl. repeat split; discriminate.
  - destruct (ReadHeaders p1) as [[hs|?] p2]; try discriminate.
    destruct (rowLoop _ _ _ _ _ _) as [[[errors n]|?]|]; try discriminate.
    intros [= <-]. simpl. repeat split.
    + intros H. apply Nat.eqb_eq in H. now destruct errors.
    + intros ->. reflexivity.
Qed.

Lemma results_invariants_witness :
  File (mkResults "data.csv" 2 [structureErrorAt 3 2 1] [] "1ms" false false) = "data.csv"
  /\ (Valid (mkResults "data.csv" 2 [structureErrorAt 3 2 1] [] "1ms" false false) = true
      <-> Errors (mkResults "data.csv" 2 [structureErrorAt 3 2 1] [] "1ms" false false) = []).
Proof.
  destruct (results_invariants (API := Parser.api) (plainValidator scenario false) "1ms"
              (mkResults "data.csv" 2 [structureErrorAt 3 2 1] [] "1ms" false false))
    as (H1 & _ & _ & H4).
  - vm_compute. reflexivity.
  - split; [exact H1|exact H4].
Defined.

Lemma processRows_clean `{F : Float64} {Src : Type} (v : Validator Src) headers rows final n :
  Forall (fun row => rowErrors v headers row = Ok []) rows ->
  errorText final = "EOF" ->
  processRows v headers rows final [] n = Ok ([], (n + length rows)%nat).
Proof.
  intros Hrows Hfinal. revert n.
  induction Hrows as [|row rows Hrow _ IH]; intros n; simpl.
  - rewrite Hfinal. simpl. do 2 f_equal. lia.
  - rewrite ValidatorFacts.validateRow_rowErrors, Hrow. simpl.
    rewrite andb_false_r, IH. do 2 f_equal. lia.
Qed.

Lemma rowErrors_aligned `{F : Float64} {Src : Type} (v : Validator Src) headers row :
  schemaValidator v = None ->
  length (Rows.Data row) = length headers ->
  rowErrors v headers row = Ok [].
Proof.
  intros Hsv Hlen. unfold rowErrors, validateRow.
  rewrite Hsv, Hlen, Nat.eqb_refl. reflexivity.
Qed.

(** X2. A document read to its end in which every row has as many fields
    as the header, validated without schema: the results are valid, hold
    no error and count every row. *)
Theorem aligned_document_is_valid `{F : Float64} {P Src : Type} `{API : !ParserAPI P Src}
    (v : Validator Src) (d : string) headers rows :
  document v = Some (headers, rows, EOF) ->
  schemaValidator v = None ->
  Forall (fun row => length (Rows.Data row) = length headers) rows ->
  Validate v d
  = Returns (Ok {| File := filePath v; TotalRows := length rows; Errors := [];
                   Warnings := []; Duration := d; Valid := true; SchemaUsed := false |}).
Proof.
  intros D Hsv Hrows.
  rewrite (ValidatorFacts.Validate_document _ _ _ _ _ D).
  rewrite processRows_clean; [|eapply Forall_impl; [exact Hrows|]|reflexivity].
  - simpl. rewrite Hsv. reflexivity.
  - intros row Hrow. now apply rowErrors_aligned.
Qed.

(** A header and two complete rows, the last line without newline. *)
Definition alignedText : string := "id,name" ++ nl ++ "1,Ann" ++ nl ++ "2,Bob".

Lemma aligned_document_is_valid_witness :
  Validate (API := Parser.api) (plainValidator alignedText true) "1ms"
  = Returns (Ok {| File := "data.csv"; TotalRows := 2; Errors := [];
                   Warnings := []; Duration := "1ms"; Valid := true; SchemaUsed := false |}).
Proof.
  refine (aligned_document_is_valid (API := Parser.api) (plainValidator alignedText true) "1ms"
            ["id"; "name"]
            [Rows.mkRow 2 ["1"; "Ann"] ["id"; "name"]; Rows.mkRow 3 ["2"; "Bob"] ["id"; "name"]]
            _ eq_refl _).
  - vm_compute. reflexivity.
  - repeat constructor.
Defined.

Lemma processRows_no_errors `{F : Float64} {Src : Type} (v : Validator Src) b headers rows final
    n m :
  processRows (withFailFast false v) headers rows final [] n = Ok ([], m) ->
  processRows (withFailFast b v) headers rows final [] n = Ok ([], m).
Proof.
  revert n. induction rows as [|row rows IH]; intros n; simpl; [auto|].
  rewrite !ValidatorFacts.validateRow_rowErrors, !ValidatorFacts.rowErrors_failFast.
  destruct (rowErrors v headers row) as [es|]; [|discriminate]. simpl.
  intros H. assert (es = []) as ->.
  { apply ValidatorFacts.processRows_Ok in H as (k & errss & _ & _ & _ & E & _).
    symmetry in E. now apply app_eq_nil in E as [-> _]. }
  simpl. rewrite andb_false_r. apply IH, H.
Qed.

(** X3. Fail-fast changes nothing when nothing is wrong: if the run
    without it returns results free of errors, the run with it returns
    the same results. *)
Theorem failfast_irrelevant_without_errors `{F : Float64} {P Src : Type}
    `{API : !ParserAPI P Src} (v : Validator Src) (b : bool) (d : string) (R : Results) :
  Validate (withFailFast false v) d = Returns (Ok R) ->
  Errors R = [] ->
  Validate (withFailFast b v) d = Returns (Ok R).
Proof.
  intros HV HE.
  destruct (document (withFailFast false v)) as [[[headers rows] final]|] eqn:D.
  - rewrite (ValidatorFacts.Validate_document _ _ _ _ _ D) in HV.
    change (document (withFailFast false v)) with (document (withFailFast b v)) in D.
    rewrite (ValidatorFacts.Validate_document _ _ _ _ _ D).
    destruct (processRows (withFailFast false v) _ _ _ _ _) as [[errors n]|] eqn:HP;
      [|discriminate].
    injection HV as <-. simpl in HE. subst errors.
    now rewrite (processRows_no_errors v b _ _ _ _ _ HP).
  - apply ValidatorFacts.Validate_Ok_inv in HV as [(e & He & _)|(h & r & f & D' & _)];
      congruence.
Qed.

Lemma failfast_irrelevant_without_errors_witness :
  Validate (API := Parser.api) (withFailFast true (plainValidator alignedText false)) "1ms"
  = Returns (Ok {| File := "data.csv"; TotalRows := 2; Errors := [];
                   Warnings := []; Duration := "1ms"; Valid := true; SchemaUsed := false |}).
Proof.
  apply (failfast_irrelevant_without_errors (API := Parser.api)
           (plainValidator alignedText false) true "1ms").
  - vm_compute. reflexivity.
  - reflexivity.
Defined.

Lemma processRows_read_error `{F : Float64} {Src : Type} (v : Validator Src) headers rows final
    errors n :
  failFast v = false ->
  errorText final <> "EOF" ->
  Forall (fun row => exists es, rowErrors v headers row = Ok es) rows ->
  processRows v headers rows final errors n
  = Err (Errorf ("failed to read row: " ++ errorText final)).
Proof.
  intros Hff Hfinal Hrows. revert errors n.
  induction Hrows as [|row rows [es Hrow] _ IH]; intros errors n; simpl.
  - apply String.eqb_neq in Hfinal. now rewrite Hfinal.
  - rewrite ValidatorFacts.validateRow_rowErrors, Hrow, Hff. simpl. apply IH.
Qed.

(** X4. A row that cannot be read ends the run without results, whatever
    was found before: when the reading of the rows stops at an error other
    than the end of the input, a run that does not fail fast returns the
    error "failed to read row: ..." and the errors of the rows before are
    lost. *)
Theorem row_read_error_aborts `{F : Float64} {P Src : Type} `{API : !ParserAPI P Src}
    (v : Validator Src) (d : string) headers rows final :
  document v = Some (headers, rows, final) ->
  errorText final <> "EOF" ->
  failFast v = false ->
  Forall (fun row => exists es, rowErrors v headers row = Ok es) rows ->
  Validate v d = Returns (Err (Errorf ("failed to read row: " ++ errorText final))).
Proof.
  intros D Hfinal Hff Hrows.
  rewrite (ValidatorFacts.Validate_document _ _ _ _ _ D).
  now rewrite processRows_read_error.
Qed.

(** A short row on line 2 and a bare quote on line 3. *)
Definition bareQuoteText : string := "a,b" ++ nl ++ "1" ++ nl ++ "x" ++ dq ++ "y,3".

Lemma row_read_error_aborts_witness :
  Validate (API := Parser.api) (plainValidator bareQuoteText false) "1ms"
  = Returns (Err (Errorf ("failed to read row: failed to read row 3: "
                          ++ "parse error on line 3, column 2: bare " ++ dq
                          ++ " in non-quoted-field"))).
Proof.
  refine (row_read_error_aborts (API := Parser.api) (plainValidator bareQuoteText false) "1ms"
            ["a"; "b"] [Rows.mkRow 2 ["1"] ["a"; "b"]]
            (Errorf ("failed to read row 3: parse error on line 3, column 2: bare " ++ dq
                     ++ " in non-quoted-field")) _ _ eq_refl _).
  - vm_compute. reflexivity.
  - vm_compute. discriminate.
  - repeat constructor. eexists. reflexivity.
Defined.

(** ** The engine: order and kind of the errors *)

Lemma StronglySorted_app_le {A} (key : A -> nat) (l1 l2 : list A) :
  StronglySorted (fun a b => key a <= key b)%nat l1 ->
  StronglySorted (fun a b => key a <= key b)%nat l2 ->
  (forall x y, x ∈ l1 -> y ∈ l2 -> (key x <= key y)%nat) ->
  StronglySorted (fun a b => key a <= key b)%nat (l1 ++ l2).
Proof.
  intros H1 H2 H12. induction H1 as [|a l1 Hs IH Ha]; simpl; [exact H2|].
  constructor.
  - apply IH. intros x y Hx Hy. apply H12; [now right|exact Hy].
  - apply Forall_app. split; [exact Ha|].
    apply Forall_forall. intros y Hy. apply H12; [left|exact Hy].
Qed.

(** Groups of errors on consecutive lines, concatenated: every line lies
    in the range of the groups, and the lines never decrease. *)
Lemma concat_lines (errss : list (list Error)) (s : nat) :
  Forall2 (fun n es => Forall (fun e => LineNumber e = n) es) (seq s (length errss)) errss ->
  Forall (fun e => s <= LineNumber e < s + length errss)%nat (concat errss)
  /\ StronglySorted (fun a b => LineNumber a <= LineNumber b)%nat (concat errss).
Proof.
  revert s. induction errss as [|es errss IH]; intros s HF; simpl.
  - split; constructor.
  - simpl in HF. apply Forall2_cons in HF as [Hes HF].
    destruct (IH (S s) HF) as [Hb Hs]. split.
    + apply Forall_app. split.
      * eapply Forall_impl; [exact Hes|]. intros e ->. lia.
      * eapply Forall_impl; [exact Hb|]. intros e He. simpl in He. lia.
    + apply StronglySorted_app_le; [|exact Hs|].
      * clear -Hes. induction Hes as [|e es He Hrest IHes]; constructor; [exact IHes|].
        eapply Forall_impl; [exact Hrest|]. intros e' ->. lia.
      * intros x y Hx Hy.
        rewrite Forall_forall in Hes, Hb.
        rewrite (Hes x Hx). specialize (Hb y Hy). simpl in Hb. lia.
Qed.

(** The errors of the consumed rows of a document, line by line. *)
Lemma errors_grouped_by_line `{F : Float64} (v : Validator ioReader) headers rows final k errss :
  document (API := Parser.api) v = Some (headers, rows, final) ->
  (k <= length rows)%nat ->
  Forall2 (fun row es => rowErrors v headers row = Ok es) (take k rows) errss ->
  length errss = k
  /\ Forall2 (fun n es => Forall (fun e => LineNumber e = n) es) (seq 2 (length errss)) errss.
Proof.
  intros D Hk HF.
  assert (Hlen : length errss = k).
  { apply Forall2_length in HF. rewrite length_take in HF. lia. }
  split; [exact Hlen|].
  assert (E : seq 2 (length errss) = Rows.LineNumber <$> take k rows).
  { rewrite fmap_take, (LineFacts.document_lines _ _ _ _ D), take_seq, Hlen.
    f_equal. lia. }
  rewrite E. apply Forall2_fmap_l. eapply Forall2_impl; [exact HF|].
  intros r l Hrl. apply Forall_forall. intros e He.
  exact (ValidatorFacts.rowErrors_LineNumber _ _ _ _ _ Hrl He).
Qed.

(** X5. In the results of a run the errors stand in the order of their
    lines, and an error is either the encoding error, on line 0 of a run
    that read no row, or lies on the line of a consumed row: between 2 and
    [TotalRows + 1]. *)
Theorem errors_in_line_order `{F : Float64} (v : Validator ioReader) (d : string) (R : Results) :
  Validate (API := Parser.api) v d = Returns (Ok R) ->
  StronglySorted (fun a b => LineNumber a <= LineNumber b)%nat (Errors R)
  /\ Forall (fun e => (Type_ e = "encoding" /\ LineNumber e = 0%nat /\ TotalRows R = 0%nat)
                      \/ (2 <= LineNumber e <= TotalRows R + 1)%nat) (Errors R).
Proof.
  intros HV.
  destruct (document (API := Parser.api) v) as [[[headers rows] final]|] eqn:D.
  - rewrite (ValidatorFacts.Validate_document _ _ _ _ _ D) in HV.
    destruct (processRows v headers rows final [] 0) as [[errors n]|] eqn:HP; [|discriminate].
    injection HV as <-. simpl.
    apply ValidatorFacts.processRows_Ok in HP as (k & errss & -> & Hk & HF & -> & _).
    destruct (errors_grouped_by_line v headers rows final k errss D Hk HF) as [Hlen HG].
    destruct (concat_lines errss 2 HG) as [Hb Hs]. simpl. split; [exact Hs|].
    eapply Forall_impl; [exact Hb|]. intros e He. right. simpl in He. lia.
  - revert HV D. unfold document, Validate.
    destruct (NewParser (input v) (delimiter v)) as [[p0|?]|]; try discriminate.
    destruct (ValidateUTF8 p0) as [[err|] p1].
    + intros [= <-] _. simpl. split; [repeat constructor|].
      constructor; [|constructor]. left. simpl. auto.
    + destruct (ReadHeaders p1) as [[hs|?] p2]; try discriminate.
      destruct (readRows p2); discriminate.
Qed.

(** Short rows on lines 2 and 4. *)
Definition shortRowsText : string := "a,b" ++ nl ++ "1" ++ nl ++ "2,3" ++ nl ++ "4".

Lemma errors_in_line_order_witness :
  StronglySorted (fun a b => LineNumber a <= LineNumber b)%nat
    [structureErrorAt 2 2 1; structureErrorAt 4 2 1]
  /\ Forall (fun e => (Type_ e = "encoding" /\ LineNumber e = 0%nat /\ 3%nat = 0%nat)
                      \/ (2 <= LineNumber e <= 3 + 1)%nat)
       [structureErrorAt 2 2 1; structureErrorAt 4 2 1].
Proof.
  refine (errors_in_line_order (plainValidator shortRowsText false) "1ms"
            (mkResults "data.csv" 3 [structureErrorAt 2 2 1; structureErrorAt 4 2 1] []
               "1ms" false false) _).
  vm_compute. reflexivity.
Defined.

Lemma rowErrors_without_schema `{F : Float64} {Src : Type} (v : Validator Src) headers row es :
  schemaValidator v = None ->
  rowErrors v headers row = Ok es ->
  es = [] \/ es = [structureError headers row].
Proof.
  unfold rowErrors, validateRow. intros ->.
  destruct (negb _); intros [= <-]; auto.
Qed.

(** X6. Without a schema validator a run reports nothing but structure
    errors, each with field "row" and no value, and at most one for each
    row it consumed; the one exception is the single encoding error of a
    run that read no row. *)
Theorem only_structure_errors_without_schema `{F : Float64} {P Src : Type}
    `{API : !ParserAPI P Src} (v : Validator Src) (d : string) (R : Results) :
  schemaValidator v = None ->
  Validate v d = Returns (Ok R) ->
  (TotalRows R = 0%nat /\ exists e, Errors R = [e] /\ Type_ e = "encoding")
  \/ ((length (Errors R) <= TotalRows R)%nat
      /\ Forall (fun e => Type_ e = "structure" /\ Field e = "row" /\ Value e = "") (Errors R)).
Proof.
  intros Hsv HV.
  apply ValidatorFacts.Validate_Ok_inv in HV
    as [(e & HE & HT & _ & Hn & _)|(headers & rows & final & D & HP & _ & _)].
  { left. eauto. }
  right.
  apply ValidatorFacts.processRows_Ok in HP as (k & errss & -> & Hk & HF & -> & _).
  simpl. assert (Hlen : length errss = length (take k rows))
    by (symmetry; eapply Forall2_length; exact HF).
  rewrite length_take in Hlen.
  assert (G : (length (concat errss) <= length errss)%nat
              /\ Forall (fun e => Type_ e = "structure" /\ Field e = "row" /\ Value e = "")
                   (concat errss)).
  { clear Hlen. induction HF as [|row es rs ess Hrow _ [IH1 IH2]]; simpl.
    - split; [lia|constructor].
    - destruct (rowErrors_without_schema v headers row es Hsv Hrow) as [->| ->]; simpl.
      + split; [lia|exact IH2].
      + split; [lia|]. constructor; [|exact IH2]. simpl. auto. }
  destruct G as [G1 G2]. split; [lia|exact G2].
Qed.

Lemma only_structure_errors_without_schema_witness :
  (length [structureErrorAt 2 2 1; structureErrorAt 4 2 1] <= 3)%nat
  /\ Forall (fun e => Type_ e = "structure" /\ Field e = "row" /\ Value e = "")
       [structureErrorAt 2 2 1; structureErrorAt 4 2 1].
Proof.
  destruct (only_structure_errors_without_schema (API := Parser.api)
              (plainValidator shortRowsText false) "1ms"
              (mkResults "data.csv" 3 [structureErrorAt 2 2 1; structureErrorAt 4 2 1] []
                 "1ms" false false) eq_refl) as [(H0 & _)|H].
  - vm_compute. reflexivity.
  - discriminate H0.
  - exact H.
Defined.

(** ** The engine and the delimiter *)

(** The validator of a run, with another delimiter. *)
Definition withDelimiter `{F : Float64} {Src : Type} (delim : string) (v : Validator Src)
    : Validator Src :=
  {| input := input v; filePath := filePath v; delimiter := delim;
     schemaValidator := schemaValidator v; failFast := failFast v |}.

(** X7. An empty delimiter makes the run panic once the input was read:
    a readable input gives no result at all, while an input that fails to
    be read gives the error of the parser's construction. *)
Theorem empty_delimiter_panics `{F : Float64} (v : Validator ioReader) (d : string) :
  delimiter v = "" ->
  (failure (input v) = None -> Validate (API := Parser.api) v d = Panics)
  /\ (forall e, failure (input v) = Some e ->
        Validate (API := Parser.api) v d
        = Returns (Err (Errorf ("failed to create parser: failed to read input: "
                                ++ errorText e)))).
Proof.
  intros Hd. unfold Validate. simpl. unfold Parser.NewParser, Copy. rewrite Hd.
  split; [intros ->|intros e ->]; reflexivity.
Qed.

Lemma empty_delimiter_panics_witness :
  Validate (API := Parser.api) (withDelimiter "" (plainValidator scenario false)) "1ms" = Panics.
Proof.
  exact (proj1 (empty_delimiter_panics (withDelimiter "" (plainValidator scenario false)) "1ms"
                  eq_refl) eq_refl).
Defined.

(** X8. A delimiter the csv reader refuses (a quote, a line feed, a
    carriage return, NUL) is found when the headers are read: the run on a
    readable, valid UTF-8 input, empty or not, returns no results but the
    error of the csv reader. *)
Theorem refused_delimiter_fails_headers `{F : Float64} (v : Validator ioReader) (d : string)
    (c : N) :
  delimiterRune (delimiter v) = Some c ->
  Csv.validDelim c = false ->
  failure (input v) = None ->
  Utf8.Valid (data (input v)) = true ->
  Validate (API := Parser.api) v d
  = Returns (Err (Errorf ("failed to read headers: failed to read headers: "
                          ++ "csv: invalid field or comment delimiter"))).
Proof.
  intros Hc Hd Hf Hv. unfold Validate. simpl. unfold Parser.NewParser, Copy.
  rewrite Hf, Hc. unfold Parser.ValidateUTF8. simpl. rewrite Hv. simpl.
  unfold Parser.ReadHeaders, Csv.Read, Csv.readRecord. simpl. rewrite Hd. reflexivity.
Qed.

Lemma refused_delimiter_fails_headers_witness :
  Csv.validDelim 10 = false
  /\ Validate (API := Parser.api) (withDelimiter nl (plainValidator scenario false)) "1ms"
     = Returns (Err (Errorf ("failed to read headers: failed to read headers: "
                             ++ "csv: invalid field or comment delimiter"))).
Proof.
  split; [reflexivity|].
  exact (refused_delimiter_fails_headers (withDelimiter nl (plainValidator scenario false))
           "1ms" 10%N eq_refl eq_refl eq_refl eq_refl).
Defined.

Lemma rowLoop_withDelimiter `{F : Float64} {P Src : Type} `{API : !ParserAPI P Src}
    (v : Validator Src) delim fuel headers p errors n :
  rowLoop fuel (withDelimiter delim v) headers p errors n = rowLoop fuel v headers p errors n.
Proof.
  revert p errors n. induction fuel as [|f IH]; intros p errors n; [reflexivity|].
  cbn [rowLoop]. destruct (ReadRow p) as [[row|err] p']; [|reflexivity].
  change (validateRow (withDelimiter delim v) headers row errors)
    with (validateRow v headers row errors).
  destruct (validateRow v headers row errors) as [errors'|]; [|reflexivity].
  change (failFast (withDelimiter delim v)) with (failFast v).
  destruct (failFast v && _); [reflexivity|apply IH].
Qed.

(** X9. Of the delimiter only the first byte counts: a run with a longer
    delimiter is the run with its first byte. *)
Theorem delimiter_first_byte_only `{F : Float64} (v : Validator ioReader) (d : string)
    (c : ascii) (rest : string) :
  Validate (API := Parser.api) (withDelimiter (String c rest) v) d
  = Validate (API := Parser.api) (withDelimiter (String c "") v) d.
Proof.
  unfold Validate.
  change (NewParser (input (withDelimiter (String c rest) v))
            (delimiter (withDelimiter (String c rest) v)))
    with (Parser.NewParser (input v) (String c rest)).
  change (NewParser (input (withDelimiter (String c "") v))
            (delimiter (withDelimiter (String c "") v)))
    with (Parser.NewParser (input v) (String c "")).
  assert (E : Parser.NewParser (input v) (String c rest)
              = Parser.NewParser (input v) (String c ""))
    by (unfold Parser.NewParser; destruct (Copy (input v)) as [buf [e|]]; reflexivity).
  rewrite E. destruct (Parser.NewParser (input v) (String c "")) as [[p0|?]|]; try reflexivity.
  destruct (ValidateUTF8 p0) as [[err|] p1]; [reflexivity|].
  destruct (ReadHeaders p1) as [[hs|?] p2]; [|reflexivity].
  now rewrite !rowLoop_withDelimiter.
Qed.

(** ** The parsers *)

(** X10. [IsEmpty] holds exactly for the rows all of whose fields are
    empty strings, the row without fields among them. *)
Theorem IsEmpty_iff_all_fields_empty (r : Rows.Row) :
  Rows.IsEmpty r = true <-> Forall (fun field => field = "") (Rows.Data r).
Proof.
  unfold Rows.IsEmpty.
  assert (G : forall l : list string,
             forallb (fun field => String.eqb field "") l = true
             <-> Forall (fun field => field = "") l).
  { induction l as [|f l IH]; simpl.
    - split; [constructor|reflexivity].
    - rewrite andb_true_iff, IH, String.eqb_eq, Forall_cons. reflexivity. }
  destruct (Rows.Data r) as [|f [|g l]]; simpl.
  - split; [constructor|reflexivity].
  - destruct (String.eqb f "") eqn:E.
    + apply String.eqb_eq in E. subst f. split; [repeat constructor|reflexivity].
    + rewrite <- (G [f]). simpl. rewrite E. reflexivity.
  - apply (G (f :: g :: l)).
Qed.

(** X11. [ValidateUTF8] rewinds the input but not the line counter: on a
    fresh parser over valid UTF-8, headers read before the validation are
    read once more after it, and the counter then stands at 2. *)
Theorem ValidateUTF8_rewinds_input (input : ioReader) (delim : string)
    (p p1 : Parser.Parser) (hs : list string) :
  Parser.NewParser input delim = Returns (Ok p) ->
  Utf8.Valid (Parser.buffer p) = true ->
  Parser.ReadHeaders p = (Ok hs, p1) ->
  exists p2 p3,
    Parser.ValidateUTF8 p1 = (None, p2)
    /\ Parser.ReadHeaders p2 = (Ok hs, p3)
    /\ Parser.lineNumber p3 = 2%nat
    /\ Parser.reader p3 = Parser.reader p1.
Proof.
  unfold Parser.NewParser. destruct (Copy input) as [buf [e|]]; [discriminate|].
  destruct (delimiterRune delim) as [c|]; [|discriminate].
  intros [= <-]. simpl. intros Hv. unfold Parser.ReadHeaders at 1. simpl.
  destruct (Csv.Read (Csv.setComma c (Csv.NewReader buf))) as [[record|e] r] eqn:E;
    [|destruct e; discriminate].
  intros [= <- <-]. unfold Parser.ValidateUTF8. simpl. rewrite Hv. simpl.
  eexists _, _. split; [reflexivity|].
  unfold Parser.ReadHeaders, Parser.setReader. simpl. rewrite E. simpl. auto.
Qed.

Lemma ValidateUTF8_rewinds_input_witness :
  exists p1 p2 p3,
    Parser.ReadHeaders
      {| Parser.reader := Csv.setComma 44 (Csv.NewReader (bytes_of scenario));
         Parser.lineNumber := 0; Parser.headers := [];
         Parser.buffer := bytes_of scenario; Parser.delimiter := 44 |}
    = (Ok ["name"; "age"], p1)
    /\ Parser.ValidateUTF8 p1 = (None, p2)
    /\ Parser.ReadHeaders p2 = (Ok ["name"; "age"], p3)
    /\ Parser.lineNumber p3 = 2%nat.
Proof.
  assert (H : Parser.ReadHeaders
                {| Parser.reader := Csv.setComma 44 (Csv.NewReader (bytes_of scenario));
                   Parser.lineNumber := 0; Parser.headers := [];
                   Parser.buffer := bytes_of scenario; Parser.delimiter := 44 |}
              = (Ok ["name"; "age"],
                 {| Parser.reader :=
                      Csv.mkReader 44 (bytes_of ("John,30" ++ nl ++ "Jane")) 1;
                    Parser.lineNumber := 1; Parser.headers := ["name"; "age"];
                    Parser.buffer := bytes_of scenario; Parser.delimiter := 44 |}))
    by (vm_compute; reflexivity).
  destruct (ValidateUTF8_rewinds_input (NewReader (bytes_of scenario)) "," _ _ _
              eq_refl eq_refl H) as (p2 & p3 & H2 & H3 & H4 & _).
  eexists _, p2, p3. split; [exact H|]. auto.
Defined.

(** X12. The engine that opens the file itself does not honour the
    delimiter: [ValidateUTF8] of the file parser makes a new csv reader
    whose comma is the default one, so two runs that differ in their
    (non-empty) delimiters only return the same. *)
Theorem file_engine_ignores_delimiter `{F : Float64} (fs : FileParser.FileSystem)
    (path d1 d2 : string) (sv : option Schema.Validator) (ff : bool) (d : string) :
  d1 <> "" -> d2 <> "" ->
  Validate (API := FileParser.api fs) (New path d1 sv ff) d
  = Validate (API := FileParser.api fs) (New path d2 sv ff) d.
Proof.
  intros H1 H2. unfold Validate.
  change (NewParser (input (New path d1 sv ff)) (delimiter (New path d1 sv ff)))
    with (FileParser.NewParser fs path d1).
  change (NewParser (input (New path d2 sv ff)) (delimiter (New path d2 sv ff)))
    with (FileParser.NewParser fs path d2).
  unfold FileParser.NewParser. destruct (fs path) as [content|]; [|reflexivity].
  destruct d1 as [|c1 r1]; [congruence|]. destruct d2 as [|c2 r2]; [congruence|].
  cbn [delimiterRune].
  change (@ValidateUTF8 _ _ (FileParser.api fs)) with FileParser.ValidateUTF8.
  unfold FileParser.ValidateUTF8. cbn [FileParser.file FileParser.lineNumber FileParser.headers].
  destruct (forallb Utf8.Valid _); [|reflexivity].
  destruct (ReadHeaders _) as [[hs|?] p2]; [|reflexivity].
  change (New path (String c1 r1) sv ff)
    with (withDelimiter (String c1 r1) (New path (String c2 r2) sv ff)).
  now rewrite rowLoop_withDelimiter.
Qed.

(** Two rows separated by semicolons. *)
Definition semicolonText : string := "a;b" ++ nl ++ "1;2".

Lemma file_engine_ignores_delimiter_witness :
  Validate (F := exactIntegers) (API := FileParser.api (fun _ => Some (bytes_of semicolonText)))
    (New "data.csv" ";" None false) "1ms"
  = Validate (F := exactIntegers) (API := FileParser.api (fun _ => Some (bytes_of semicolonText)))
      (New "data.csv" "," None false) "1ms".
Proof.
  apply file_engine_ignores_delimiter; discriminate.
Defined.

(** Valid UTF-8 followed by any bytes is valid exactly when those bytes
    are: a valid sequence ends at a character boundary. *)
Lemma Valid_app (a b : bytes) :
  Utf8.Valid a = true -> Utf8.Valid (a ++ b) = Utf8.Valid b.
Proof.
  remember (length a) as n eqn:Hn. revert a Hn.
  induction n as [n IH] using lt_wf_ind. intros a Hn Ha.
  destruct a as [|pi rest]; [reflexivity|].
  cbn -[Utf8.first Utf8.acceptRanges Utf8.inRange N.land N.shiftr N.ltb N.eqb b2n] in Ha |- *.
  destruct (b2n pi <? Utf8.RuneSelf)%N.
  { apply (IH (length rest)); [subst; simpl; lia|reflexivity|exact Ha]. }
  destruct (Utf8.first (b2n pi) =? Utf8.xx)%N; [discriminate|].
  destruct (Utf8.acceptRanges _) as [lo hi].
  destruct rest as [|c1 r1]; [discriminate|].
  cbn -[Utf8.first Utf8.acceptRanges Utf8.inRange N.land N.shiftr N.ltb N.eqb b2n] in Ha |- *.
  destruct (negb (Utf8.inRange lo hi c1)); [discriminate|].
  destruct (N.land _ 7 =? 2)%N.
  { apply (IH (length r1)); [subst; simpl; lia|reflexivity|exact Ha]. }
  destruct r1 as [|c2 r2]; [discriminate|].
  cbn -[Utf8.first Utf8.acceptRanges Utf8.inRange N.land N.shiftr N.ltb N.eqb b2n] in Ha |- *.
  destruct (negb (Utf8.inRange Utf8.locb Utf8.hicb c2)); [discriminate|].
  destruct (N.land _ 7 =? 3)%N.
  { apply (IH (length r2)); [subst; simpl; lia|reflexivity|exact Ha]. }
  destruct r2 as [|c3 r3]; [discriminate|].
  cbn -[Utf8.first Utf8.acceptRanges Utf8.inRange N.land N.shiftr N.ltb N.eqb b2n] in Ha |- *.
  destruct (negb (Utf8.inRange Utf8.locb Utf8.hicb c3)); [discriminate|].
  apply (IH (length r3)); [subst; simpl; lia|reflexivity|exact Ha].
Qed.

Lemma Valid_concat (ls : list bytes) :
  forallb Utf8.Valid ls = true -> Utf8.Valid (concat ls) = true.
Proof.
  induction ls as [|l ls IH]; simpl; [reflexivity|].
  intros H. apply andb_prop in H as [Hl Hls]. rewrite (Valid_app _ _ Hl). auto.
Qed.

Lemma blocks_concat (fuel size : nat) (content : bytes) :
  (0 < size)%nat -> (length content <= fuel)%nat ->
  concat (FileParser.blocks fuel size content) = content.
Proof.
  intros Hsize. revert content. induction fuel as [|f IH]; intros content Hlen.
  - destruct content; [reflexivity|simpl in Hlen; lia].
  - destruct content as [|c cs]; [reflexivity|].
    cbn [FileParser.blocks concat]. rewrite IH, take_drop; [reflexivity|].
    rewrite length_drop. simpl in *. lia.
Qed.

Lemma blocks_single (fuel size : nat) (content : bytes) :
  content <> [] -> (length content <= size)%nat ->
  FileParser.blocks (S fuel) size content = [content].
Proof.
  intros Hne Hlen. destruct content as [|c cs]; [congruence|].
  cbn [FileParser.blocks]. rewrite take_ge, drop_ge by assumption.
  destruct fuel; reflexivity.
Qed.

(** X13. The validation block by block never accepts a file that is not
    valid UTF-8, and for a file of at most one block (4096 bytes) it
    accepts exactly the valid ones. *)
Theorem blockwise_validation_sound (p : FileParser.Parser) :
  ((FileParser.ValidateUTF8 p).1 = None -> Utf8.Valid (FileParser.file p) = true)
  /\ ((length (FileParser.file p) <= 4096)%nat ->
      Utf8.Valid (FileParser.file p) = true -> (FileParser.ValidateUTF8 p).1 = None).
Proof.
  unfold FileParser.ValidateUTF8, FileParser.bufferSize. split.
  - destruct (forallb Utf8.Valid _) eqn:E; [|discriminate]. intros _.
    apply Valid_concat in E. rewrite blocks_concat in E; [exact E|lia|lia].
  - intros Hlen Hv. destruct (FileParser.file p) as [|c cs] eqn:Ef; [reflexivity|].
    change (length (c :: cs)) with (S (length cs)).
    rewrite blocks_single; [|discriminate|exact Hlen].
    cbn [forallb]. rewrite Hv. reflexivity.
Qed.

Lemma blockwise_validation_sound_witness :
  (FileParser.ValidateUTF8 (fileParserOn (bytes_of "a,b"))).1 = None
  /\ Utf8.Valid (FileParser.file (fileParserOn (bytes_of "a,b"))) = true.
Proof.
  assert (H : (FileParser.ValidateUTF8 (fileParserOn (bytes_of "a,b"))).1 = None).
  { apply (proj2 (blockwise_validation_sound (fileParserOn (bytes_of "a,b")))).
    - simpl. lia.
    - reflexivity. }
  split; [exact H|].
  exact (proj1 (blockwise_validation_sound (fileParserOn (bytes_of "a,b"))) H).
Defined.

Lemma rowLoop_revisions `{F : Float64} (fs : FileParser.FileSystem) (fuel : nat)
    (vf : Validator string) (vb : Validator ioReader) headers
    (pf : FileParser.Parser) (pb : Parser.Parser) errors n :
  schemaValidator vf = schemaValidator vb ->
  failFast vf = failFast vb ->
  FileParser.reader pf = Parser.reader pb ->
  FileParser.lineNumber pf = Parser.lineNumber pb ->
  FileParser.headers pf = Parser.headers pb ->
  rowLoop (API := FileParser.api fs) fuel vf headers pf errors n
  = rowLoop (API := Parser.api) fuel vb headers pb errors n.
Proof.
  intros Hsv Hff. revert pf pb errors n.
  induction fuel as [|f IH]; intros pf pb errors n Hr Hl Hh; [reflexivity|].
  cbn [rowLoop].
  change (@ReadRow _ _ (FileParser.api fs) pf) with (FileParser.ReadRow pf).
  change (@ReadRow _ _ Parser.api pb) with (Parser.ReadRow pb).
  unfold FileParser.ReadRow, Parser.ReadRow. rewrite Hr, Hl, Hh.
  destruct (Csv.Read (Parser.reader pb)) as [[record|e] r].
  - assert (E : forall row, validateRow vf headers row errors = validateRow vb headers row errors)
      by (intros row; unfold validateRow; now rewrite Hsv).
    rewrite E. destruct (validateRow vb headers _ errors) as [errors'|]; [|reflexivity].
    rewrite Hff. destruct (failFast vb && _); [reflexivity|].
    apply IH; reflexivity.
  - destruct e; reflexivity.
Qed.

(** X14. The two revisions of the parser give the same run on a file of
    at most one block of valid UTF-8 whose header can be read, when the
    delimiter is the comma: the engine over the file parser returns what
    the engine over the buffering parser returns on the file's bytes. *)
Theorem revisions_agree `{F : Float64} (fs : FileParser.FileSystem) (path : string)
    (content : bytes) (sv : option Schema.Validator) (ff : bool) (d : string)
    (hs : list string) (r : Csv.Reader) :
  fs path = Some content ->
  (length content <= 4096)%nat ->
  Utf8.Valid content = true ->
  Csv.Read (Csv.NewReader content) = (Ok hs, r) ->
  Validate (API := FileParser.api fs) (New path "," sv ff) d
  = Validate (API := Parser.api) (Cmd.New (NewReader content) path "," sv ff) d.
Proof.
  intros Hfs Hlen Hv Hread.
  set (pf0 := {| FileParser.file := content;
                 FileParser.reader := Csv.setComma (N_of_ascii ",") (Csv.NewReader content);
                 FileParser.lineNumber := 0; FileParser.headers := [] |}).
  set (pf1 := {| FileParser.file := content; FileParser.reader := Csv.NewReader content;
                 FileParser.lineNumber := 0; FileParser.headers := [] |}).
  set (pf2 := {| FileParser.file := content; FileParser.reader := r;
                 FileParser.lineNumber := 1; FileParser.headers := hs |}).
  set (pb0 := {| Parser.reader := Csv.setComma (N_of_ascii ",") (Csv.NewReader content);
                 Parser.lineNumber := 0; Parser.headers := [];
                 Parser.buffer := content; Parser.delimiter := N_of_ascii "," |}).
  set (pb2 := {| Parser.reader := r; Parser.lineNumber := 1; Parser.headers := hs;
                 Parser.buffer := content; Parser.delimiter := N_of_ascii "," |}).
  assert (Ef0 : FileParser.NewParser fs path "," = Returns (Ok pf0))
    by (unfold FileParser.NewParser; now rewrite Hfs).
  assert (Eb0 : Parser.NewParser (NewReader content) "," = Returns (Ok pb0)) by reflexivity.
  assert (Ef1 : FileParser.ValidateUTF8 pf0 = (None, pf1)).
  { unfold FileParser.ValidateUTF8, FileParser.bufferSize. cbn [FileParser.file pf0].
    destruct content as [|c cs]; [reflexivity|].
    change (length (c :: cs)) with (S (length cs)).
    rewrite blocks_single; [|discriminate|exact Hlen]. cbn [forallb]. now rewrite Hv. }
  assert (Eb1 : Parser.ValidateUTF8 pb0 = (None, pb0)).
  { unfold Parser.ValidateUTF8. cbn [Parser.buffer pb0]. now rewrite Hv. }
  assert (Ef2 : FileParser.ReadHeaders pf1 = (Ok hs, pf2)).
  { unfold FileParser.ReadHeaders. cbn [FileParser.reader pf1]. now rewrite Hread. }
  assert (Eb2 : Parser.ReadHeaders pb0 = (Ok hs, pb2)).
  { unfold Parser.ReadHeaders. cbn [Parser.reader pb0].
    change (Csv.setComma (N_of_ascii ",") (Csv.NewReader content)) with (Csv.NewReader content).
    now rewrite Hread. }
  unfold Validate.
  change (NewParser (input (New path "," sv ff)) (delimiter (New path "," sv ff)))
    with (FileParser.NewParser fs path ",").
  change (NewParser (input (Cmd.New (NewReader content) path "," sv ff))
            (delimiter (Cmd.New (NewReader content) path "," sv ff)))
    with (Parser.NewParser (NewReader content) ",").
  rewrite Ef0, Eb0.
  change (@ValidateUTF8 _ _ (FileParser.api fs) pf0) with (FileParser.ValidateUTF8 pf0).
  change (@ValidateUTF8 _ _ Parser.api pb0) with (Parser.ValidateUTF8 pb0).
  rewrite Ef1, Eb1.
  change (@ReadHeaders _ _ (FileParser.api fs) pf1) with (FileParser.ReadHeaders pf1).
  change (@ReadHeaders _ _ Parser.api pb0) with (Parser.ReadHeaders pb0).
  rewrite Ef2, Eb2.
  rewrite (rowLoop_revisions fs _ (New path "," sv ff)
             (Cmd.New (NewReader content) path "," sv ff) hs pf2 pb2
             [] 0%nat eq_refl eq_refl eq_refl eq_refl eq_refl).
  reflexivity.
Qed.

Lemma revisions_agree_witness :
  Validate (F := exactIntegers) (API := FileParser.api (fun _ => Some (bytes_of scenario)))
    (New "data.csv" "," None false) "1ms"
  = Validate (API := Parser.api) (plainValidator scenario false) "1ms".
Proof.
  refine (revisions_agree (fun _ => Some (bytes_of scenario)) "data.csv" (bytes_of scenario)
            None false "1ms" ["name"; "age"]
            (Csv.mkReader 44 (bytes_of ("John,30" ++ nl ++ "Jane")) 1) eq_refl _ eq_refl _).
  - vm_compute. lia.
  - vm_compute. reflexivity.
Defined.

(** ** The row validator *)

Lemma buildRow_dom `{F : Float64} (v : Schema.Validator) headers data
    (m : gmap string Jsonschema.value) :
  length headers = length data ->
  dom (Schema.buildRow v headers data m) = list_to_set headers ∪ dom m.
Proof.
  revert data m. induction headers as [|h hs IH]; intros data m Hlen.
  - simpl. now rewrite (left_id_L ∅ (∪)).
  - destruct data as [|raw ds]; [discriminate|]. simpl.
    rewrite IH by (simpl in Hlen; lia). rewrite dom_insert_L.
    rewrite (assoc_L (∪)). f_equal. apply (comm_L (∪)).
Qed.

Lemma coerce_no_number_type `{F : Float64} (types : list string) (raw : string) :
  "integer" ∉ types -> "number" ∉ types -> Schema.coerce types raw = Jsonschema.VString raw.
Proof.
  induction types as [|t types IH]; intros Hi Hn; [reflexivity|].
  apply not_elem_of_cons in Hi as [Hi Hi']. apply not_elem_of_cons in Hn as [Hn Hn'].
  simpl.
  destruct (String.eqb t "integer") eqn:E1; [apply String.eqb_eq in E1; congruence|].
  destruct (String.eqb t "number") eqn:E2; [apply String.eqb_eq in E2; congruence|].
  auto.
Qed.

(** X15. The object handed to the schema for a row as long as the
    headers has exactly the headers as its keys, declared by the schema or
    not; and a column whose header the schema does not declare, or declares
    with neither "integer" nor "number" among its types, is handed over as
    the raw string. *)
Theorem row_object_keys_and_strings `{F : Float64} (v : Schema.Validator)
    (headers data : list string) :
  length headers = length data ->
  dom (Schema.buildRow v headers data ∅) = list_to_set headers
  /\ (forall i header raw,
        headers !! i = Some header -> data !! i = Some raw ->
        (forall j, (i < j)%nat -> headers !! j <> Some header) ->
        match Jsonschema.Properties (Schema.schema v) !! header with
        | Some types => ("integer" ∉ types) /\ ("number" ∉ types)
        | None => True
        end ->
        Schema.buildRow v headers data ∅ !! header = Some (Jsonschema.VString raw)).
Proof.
  intros Hlen. split.
  - rewrite buildRow_dom by assumption. rewrite dom_empty_L. apply (right_id_L ∅ (∪)).
  - intros i header raw Hh Hd Hlast Htypes.
    rewrite (CoercionFacts.buildRow_lookup v headers data ∅ i header raw Hh Hd Hlast).
    unfold Schema.fieldValue.
    destruct (Jsonschema.Properties (Schema.schema v) !! header) as [types|]; [|reflexivity].
    destruct Htypes as [Hi Hn]. now rewrite coerce_no_number_type.
Qed.

Lemma row_object_keys_and_strings_witness :
  dom (Schema.buildRow ageSchema ["name"; "age"] ["John"; "30"] ∅)
  = list_to_set ["name"; "age"]
  /\ Schema.buildRow ageSchema ["name"; "age"] ["John"; "30"] ∅ !! "name"
     = Some (Jsonschema.VString "John").
Proof.
  destruct (row_object_keys_and_strings ageSchema ["name"; "age"] ["John"; "30"] eq_refl)
    as [H1 H2].
  split; [exact H1|].
  apply (H2 0%nat "name" "John" eq_refl eq_refl).
  - intros [|[|j]] Hj; simpl; try discriminate; lia.
  - reflexivity.
Defined.

(** The nodes of an error tree, each before its causes, the causes from
    left to right. *)
Fixpoint nodes (e : Jsonschema.ValidationError) : list Jsonschema.ValidationError :=
  let 'Jsonschema.mkValidationError _ _ causes := e in
  e :: concat (map nodes causes).

(** The issue a node with a location stands for. *)
Definition issueOf `{F : Float64} (data : gmap string Jsonschema.value)
    (e : Jsonschema.ValidationError) : Schema.ValidationError :=
  let field := Schema.trimSlash (Jsonschema.InstanceLocation e) in
  {| Schema.Field := field;
     Schema.Message := Jsonschema.Message e;
     Schema.Value := match data !! field with
                     | Some val => Schema.formatValue val
                     | None => ""
                     end |}.

(** Induction on an error tree, with the property known for all causes. *)
Fixpoint ValidationError_tree_ind (P : Jsonschema.ValidationError -> Prop)
    (H : forall l m cs, Forall P cs -> P (Jsonschema.mkValidationError l m cs))
    (e : Jsonschema.ValidationError) : P e :=
  match e with
  | Jsonschema.mkValidationError l m cs =>
      H l m cs
        ((fix go (cs : list Jsonschema.ValidationError) : Forall P cs :=
            match cs return Forall P cs with
            | [] => @List.Forall_nil _ P
            | c :: cs' => @List.Forall_cons _ P c cs' (ValidationError_tree_ind P H c) (go cs')
            end) cs)
  end.

(** X16. [convertValidationErrors] lists the tree depth first, a node
    before its causes, keeps the nodes that have an instance location (the
    root, whose location is empty, gives no issue) and turns each into its
    issue. *)
Theorem convertValidationErrors_is_preorder `{F : Float64}
    (err : Jsonschema.ValidationError) (data : gmap string Jsonschema.value) :
  Schema.convertValidationErrors err data
  = issueOf data <$> filter (fun e => Jsonschema.InstanceLocation e <> "") (nodes err).
Proof.
  induction err as [l m cs IH] using ValidationError_tree_ind.
  cbn [Schema.convertValidationErrors nodes].
  assert (E : concat (map (fun cause => Schema.convertValidationErrors cause data) cs)
              = issueOf data <$> filter (fun e => Jsonschema.InstanceLocation e <> "")
                                   (concat (map nodes cs))).
  { induction IH as [|c cs Hc _ IHcs]; [reflexivity|].
    cbn [map concat]. rewrite filter_app, fmap_app, Hc, IHcs. reflexivity. }
  rewrite E. destruct (String.eqb l "") eqn:El.
  - apply String.eqb_eq in El. subst l.
    rewrite filter_cons_False by (simpl; congruence). reflexivity.
  - apply String.eqb_neq in El.
    rewrite filter_cons_True by (simpl; exact El). reflexivity.
Qed.

(** The issues of a verdict are those of its nodes that have a location. *)
Lemma issues_of_located_nodes `{F : Float64} (err : Jsonschema.ValidationError)
    (data : gmap string Jsonschema.value) (issue : Schema.ValidationError) :
  issue ∈ Schema.convertValidationErrors err data
  <-> exists e, e ∈ nodes err /\ Jsonschema.InstanceLocation e <> "" /\ issue = issueOf data e.
Proof.
  revert issue.
  induction err as [l m cs IH] using ValidationError_tree_ind. intros issue.
  cbn [Schema.convertValidationErrors nodes].
  assert (C : issue ∈ concat (map (fun cause => Schema.convertValidationErrors cause data) cs)
              <-> exists e, e ∈ concat (map nodes cs)
                            /\ Jsonschema.InstanceLocation e <> "" /\ issue = issueOf data e).
  { induction IH as [|c cs Hc _ IHcs]; cbn [map concat].
    - split; [intros H; inversion H|intros (e & H & _); inversion H].
    - rewrite elem_of_app, Hc, IHcs. split.
      + intros [(e & He & H)|(e & He & H)]; exists e; rewrite elem_of_app; tauto.
      + intros (e & He & H). apply elem_of_app in He as [He|He]; [left|right]; eauto. }
  rewrite elem_of_app, C. clear C IH. split.
  - intros [H|(e & He & H)].
    + destruct (String.eqb l "") eqn:El; cbn [negb] in H; [inversion H|].
      apply String.eqb_neq in El. apply list_elem_of_singleton in H.
      exists (Jsonschema.mkValidationError l m cs). split; [left|]. split; [exact El|exact H].
    + exists e. split; [now right|exact H].
  - intros (e & He & Hl & ->). apply elem_of_cons in He as [->|He].
    + left. cbn [Jsonschema.InstanceLocation] in Hl. apply String.eqb_neq in Hl.
      rewrite Hl. cbn [negb]. apply list_elem_of_singleton. reflexivity.
    + right. eauto.
Qed.

(** X17. The value an issue echoes is the coerced one. For a column the
    schema declares and whose raw field was converted to an integer,
    whatever verdict rejects the row: every node of the verdict located at
    that column is reported with the integer in decimal, which need not be
    the text of the field, and no issue at that column echoes anything
    else. *)
Theorem integer_value_echoed_in_decimal `{F : Float64} (v : Schema.Validator)
    (headers data : list string) (i : nat) (header raw : string) (types : list string)
    (n : Z) (verdict : Jsonschema.ValidationError) :
  length headers = length data ->
  headers !! i = Some header -> data !! i = Some raw ->
  (forall j, (i < j)%nat -> headers !! j <> Some header) ->
  Jsonschema.Properties (Schema.schema v) !! header = Some types ->
  Schema.coerce types raw = Jsonschema.VInt n ->
  Jsonschema.Validate (Schema.schema v) (Schema.buildRow v headers data ∅)
  = Jsonschema.Invalid verdict ->
  exists issues,
    Schema.ValidateRow v headers data = Ok issues
    /\ (forall e, e ∈ nodes verdict ->
          Jsonschema.InstanceLocation e <> "" ->
          Schema.trimSlash (Jsonschema.InstanceLocation e) = header ->
          {| Schema.Field := header; Schema.Message := Jsonschema.Message e;
             Schema.Value := formatInt n |} ∈ issues)
    /\ (forall issue, issue ∈ issues ->
          Schema.Field issue = header -> Schema.Value issue = formatInt n).
Proof.
  intros Hlen Hh Hd Hlast Hp Hc Hv. unfold Schema.ValidateRow.
  rewrite Hlen, Nat.eqb_refl. cbn [negb]. rewrite Hv.
  assert (L : Schema.buildRow v headers data ∅ !! header = Some (Jsonschema.VInt n)).
  { rewrite (CoercionFacts.buildRow_lookup v headers data ∅ i header raw Hh Hd Hlast).
    unfold Schema.fieldValue. now rewrite Hp, Hc. }
  eexists. split; [reflexivity|]. split.
  - intros e He Hl Hf. apply issues_of_located_nodes. exists e.
    split; [exact He|]. split; [exact Hl|].
    unfold issueOf. rewrite Hf, L. reflexivity.
  - intros issue Hin Hf. apply issues_of_located_nodes in Hin as (e & _ & _ & ->).
    unfold issueOf in *. cbn [Schema.Field Schema.Value] in *. rewrite Hf, L. reflexivity.
Qed.

(** A schema that declares "age" an integer and rejects every row with
    a verdict of three nodes: a root without location, and below it one
    cause at "/age" and one at "/name". *)
Definition strictAgeSchema : Schema.Validator (F := exactIntegers) :=
  {| Schema.schema :=
       {| Jsonschema.Properties := <["age" := ["integer"]]> ∅;
          Jsonschema.Validate := fun _ =>
            Jsonschema.Invalid
              (Jsonschema.mkValidationError "" "doesn't validate with schema"
                 [Jsonschema.mkValidationError "/age" "must be >= 18" [];
                  Jsonschema.mkValidationError "/name" "length must be >= 4" []]) |} |}.

Lemma integer_value_echoed_in_decimal_witness :
  exists issues,
    Schema.ValidateRow strictAgeSchema ["name"; "age"] ["Kid"; "007"] = Ok issues
    /\ {| Schema.Field := "age"; Schema.Message := "must be >= 18"; Schema.Value := "7" |}
       ∈ issues.
Proof.
  destruct (integer_value_echoed_in_decimal strictAgeSchema ["name"; "age"] ["Kid"; "007"]
              1%nat "age" "007" ["integer"] 7%Z
              (Jsonschema.mkValidationError "" "doesn't validate with schema"
                 [Jsonschema.mkValidationError "/age" "must be >= 18" [];
                  Jsonschema.mkValidationError "/name" "length must be >= 4" []]))
    as (issues & HV & Hin & _).
  - reflexivity.
  - reflexivity.
  - reflexivity.
  - intros [|[|[|j]]] Hj; simpl; try discriminate; lia.
  - reflexivity.
  - reflexivity.
  - reflexivity.
  - exists issues. split; [exact HV|].
    apply (Hin (Jsonschema.mkValidationError "/age" "must be >= 18" [])).
    + cbn [nodes map concat app]. right. left.
    + discriminate.
    + reflexivity.
Defined.

(** ** The schema resolver *)

(** The project-wide schema file of a directory. *)
Definition projectSchema (dir : Filepath.Path) : Filepath.Path :=
  Filepath.Join dir "csvlinter.schema.json".

(** The directory [k] levels above a cleaned directory. *)
Definition ancestor (k : nat) (dir : Filepath.Path) : Filepath.Path :=
  Filepath.mkPath (Filepath.rooted dir) (drop k (Filepath.elems dir)).

Lemma walk_found (fs : Resolve.FileSystem) (r : bool) (up : list string) :
  Resolve.walk fs r up <> "" ->
  exists k,
    Resolve.walk fs r up = Filepath.render (projectSchema (ancestor k (Filepath.mkPath r up)))
    /\ Resolve.fileExists fs (projectSchema (ancestor k (Filepath.mkPath r up))) = true
    /\ (forall j, (j <= k)%nat ->
          Resolve.isProjectRoot fs (ancestor j (Filepath.mkPath r up)) = false
          /\ Resolve.isSystemRoot (ancestor j (Filepath.mkPath r up)) = false)
    /\ (forall j, (j < k)%nat ->
          Resolve.fileExists fs (projectSchema (ancestor j (Filepath.mkPath r up))) = false).
Proof.
  unfold ancestor, projectSchema. cbn [Filepath.rooted Filepath.elems].
  induction up as [|e up IH]; cbn [Resolve.walk].
  - destruct (Resolve.isProjectRoot fs _ || Resolve.isSystemRoot _) eqn:Hroot; [congruence|].
    apply orb_false_elim in Hroot as [Hp Hs].
    destruct (Resolve.fileExists fs _) eqn:Hex; [|congruence]. intros _.
    exists 0%nat. cbn [drop]. repeat split; try assumption.
    + destruct j; [exact Hp|lia].
    + destruct j; [exact Hs|lia].
    + lia.
  - destruct (Resolve.isProjectRoot fs _ || Resolve.isSystemRoot _) eqn:Hroot; [congruence|].
    apply orb_false_elim in Hroot as [Hp Hs].
    destruct (Resolve.fileExists fs _) eqn:Hex.
    + intros _. exists 0%nat. cbn [drop]. repeat split; try assumption.
      * destruct j; [exact Hp|lia].
      * destruct j; [exact Hs|lia].
      * lia.
    + intros Hne. destruct (IH Hne) as (k & Hw & Hf & Hroots & Hnone).
      exists (S k). cbn [drop]. split; [exact Hw|]. split; [exact Hf|]. split.
      * intros [|j] Hj; cbn [drop]; [auto|]. apply Hroots. lia.
      * intros [|j] Hj; cbn [drop]; [exact Hex|]. apply Hnone. lia.
Qed.

Lemma fileExists_Regular (fs : Resolve.FileSystem) (path : Filepath.Path) :
  Resolve.fileExists fs path = true -> fs !! Filepath.render path = Some Resolve.Regular.
Proof.
  unfold Resolve.fileExists. destruct (fs !! Filepath.render path) as [[|]|]; congruence.
Qed.

(** X18. The resolver never names something that is not there: its
    result is empty or the path of a regular file. *)
Theorem ResolveSchema_names_a_file (fs : Resolve.FileSystem) (csvPath : string) :
  Resolve.ResolveSchema fs csvPath = ""
  \/ fs !! Resolve.ResolveSchema fs csvPath = Some Resolve.Regular.
Proof.
  unfold Resolve.ResolveSchema.
  destruct (Resolve.fileExists fs (Filepath.Join _ (_ ++ ".schema.json"))) eqn:H1.
  { right. now apply fileExists_Regular. }
  destruct (Resolve.fileExists fs (Filepath.Join _ "csvlinter.schema.json")) eqn:H2.
  { right. now apply fileExists_Regular. }
  destruct (String.eqb (Resolve.walk fs (Filepath.rooted (Filepath.Dir csvPath))
                          (Filepath.elems (Filepath.Dir csvPath))) "") eqn:E.
  - left. now apply String.eqb_eq.
  - right. apply String.eqb_neq in E.
    destruct (walk_found fs _ _ E) as (k & -> & Hf & _). now apply fileExists_Regular.
Qed.

(** X19. When the file named after the CSV file is missing and the
    resolver still finds a schema, it is the nearest csvlinter.schema.json
    at or above the directory of the CSV file: no directory below it on
    the way has that file or is a project root, and unless it lies in the
    directory of the CSV file itself, its own directory is neither a
    project root nor the topmost directory. *)
Theorem ResolveSchema_nearest_project_schema (fs : Resolve.FileSystem) (csvPath : string) :
  let csvDir := Filepath.Dir csvPath in
  let csvBase := Filepath.Base csvPath in
  let csvName :=
    substring 0 (String.length csvBase - String.length (Filepath.Ext csvBase)) csvBase in
  Resolve.fileExists fs (Filepath.Join csvDir (csvName ++ ".schema.json")) = false ->
  Resolve.ResolveSchema fs csvPath <> "" ->
  exists k,
    Resolve.ResolveSchema fs csvPath = Filepath.render (projectSchema (ancestor k csvDir))
    /\ Resolve.fileExists fs (projectSchema (ancestor k csvDir)) = true
    /\ (forall j, (j < k)%nat ->
          Resolve.fileExists fs (projectSchema (ancestor j csvDir)) = false
          /\ Resolve.isProjectRoot fs (ancestor j csvDir) = false)
    /\ (k = 0%nat
        \/ (Resolve.isProjectRoot fs (ancestor k csvDir) = false
            /\ Resolve.isSystemRoot (ancestor k csvDir) = false)).
Proof.
  intros csvDir csvBase csvName H1. unfold Resolve.ResolveSchema.
  fold csvDir csvBase csvName. rewrite H1.
  assert (E0 : ancestor 0 csvDir = csvDir) by (destruct csvDir; reflexivity).
  destruct (Resolve.fileExists fs (Filepath.Join csvDir "csvlinter.schema.json")) eqn:H2.
  - intros _. exists 0%nat. unfold projectSchema. rewrite E0.
    split; [reflexivity|]. split; [exact H2|]. split; [intros j Hj; lia|now left].
  - intros Hne. destruct (walk_found fs _ _ Hne) as (k & Hw & Hf & Hroots & Hnone).
    assert (Ed : Filepath.mkPath (Filepath.rooted csvDir) (Filepath.elems csvDir) = csvDir)
      by (destruct csvDir; reflexivity).
    rewrite Ed in Hw, Hf, Hroots, Hnone.
    exists k. split; [exact Hw|]. split; [exact Hf|]. split.
    + intros j Hj. split; [now apply Hnone|]. apply Hroots. lia.
    + right. apply Hroots. lia.
Qed.

(** A schema two directories above the CSV file, no marker anywhere. *)
Definition plainTree : Resolve.FileSystem :=
  <["/data/csvlinter.schema.json" := Resolve.Regular]>
    (<["/data/in/raw/file.csv" := Resolve.Regular]> ∅).

Lemma ResolveSchema_nearest_project_schema_witness :
  Resolve.ResolveSchema plainTree "/data/in/raw/file.csv" = "/data/csvlinter.schema.json"
  /\ exists k,
       Resolve.ResolveSchema plainTree "/data/in/raw/file.csv"
       = Filepath.render (projectSchema (ancestor k (Filepath.Dir "/data/in/raw/file.csv")))
       /\ Resolve.fileExists plainTree
            (projectSchema (ancestor k (Filepath.Dir "/data/in/raw/file.csv"))) = true.
Proof.
  split; [vm_compute; reflexivity|].
  destruct (ResolveSchema_nearest_project_schema plainTree "/data/in/raw/file.csv")
    as (k & H1 & H2 & _).
  - vm_compute. reflexivity.
  - vm_compute. discriminate.
  - exists k. split; assumption.
Defined.

(** ** The command and the size limit *)

Lemma LimitReader_above (r : ioReader) (n : Z) :
  (length (data r) < Z.to_nat n)%nat -> LimitReader r n = r.
Proof.
  intros H. unfold LimitReader. rewrite take_ge by lia.
  apply Nat.ltb_lt in H. rewrite H. now destruct r.
Qed.

(** X20. A limit above the length of standard input plays no part: two
    such limits give the same outcome, whatever standard input holds and
    whether or not reading it fails. *)
Theorem limit_above_input_is_transparent `{F : Float64} (stdin : ioReader)
    (open : string -> res ioReader) (delimiter : string)
    (schemaValidator : option Schema.Validator) (failFast : bool)
    (maxSize maxSize' : Z) (duration : string) :
  (length (data stdin) < Z.to_nat maxSize)%nat ->
  (length (data stdin) < Z.to_nat maxSize')%nat ->
  Cmd.validateAction stdin open "-" delimiter schemaValidator failFast maxSize duration
  = Cmd.validateAction stdin open "-" delimiter schemaValidator failFast maxSize' duration.
Proof.
  intros H H'. unfold Cmd.validateAction, Cmd.selectInput. cbn [String.eqb Ascii.eqb Bool.eqb].
  now rewrite (LimitReader_above stdin maxSize H), (LimitReader_above stdin maxSize' H').
Qed.

Lemma limit_above_input_is_transparent_witness :
  Cmd.validateAction (F := exactIntegers) (NewReader (bytes_of tenBytes)) noFiles
    "-" "," None false 11 "1ms"
  = Cmd.validateAction (F := exactIntegers) (NewReader (bytes_of tenBytes)) noFiles
      "-" "," None false Cmd.defaultMaxSize "1ms".
Proof.
  apply (limit_above_input_is_transparent (F := exactIntegers) (NewReader (bytes_of tenBytes))
           noFiles "," None false 11 Cmd.defaultMaxSize "1ms").
  - vm_compute. lia.
  - change (length (data (NewReader (bytes_of tenBytes)))) with 10%nat.
    unfold Cmd.defaultMaxSize. lia.
Defined.

(** X21. With a limit of zero or less nothing is read from standard
    input: for a delimiter the csv reader accepts, the command fails with
    the message of an empty input, whatever standard input holds. *)
Theorem nonpositive_limit_reads_nothing `{F : Float64} (stdin : ioReader)
    (open : string -> res ioReader) (delimiter : string) (c : N)
    (schemaValidator : option Schema.Validator) (failFast : bool)
    (maxSize : Z) (duration : string) :
  (maxSize <= 0)%Z ->
  delimiterRune delimiter = Some c ->
  Csv.validDelim c = true ->
  Cmd.validateAction stdin open "-" delimiter schemaValidator failFast maxSize duration
  = Returns (Err (Errorf
      "Error during validation: failed to read headers: empty input: no headers found")).
Proof.
  intros Hm Hc Hd. unfold Cmd.validateAction, Cmd.selectInput. cbn [String.eqb Ascii.eqb Bool.eqb].
  assert (E : LimitReader stdin maxSize = NewReader []).
  { unfold LimitReader, NewReader. replace (Z.to_nat maxSize) with 0%nat by lia.
    reflexivity. }
  rewrite E. unfold Validate. simpl. unfold Parser.NewParser, Copy. simpl.
  rewrite Hc. unfold Parser.ValidateUTF8. simpl.
  unfold Parser.ReadHeaders, Csv.Read, Csv.readRecord. simpl. rewrite Hd. reflexivity.
Qed.

Lemma nonpositive_limit_reads_nothing_witness :
  Cmd.validateAction (F := exactIntegers) (NewReader (bytes_of tenBytes)) noFiles
    "-" "," None false 0 "1ms"
  = Returns (Err (Errorf
      "Error during validation: failed to read headers: empty input: no headers found")).
Proof.
  apply (nonpositive_limit_reads_nothing (F := exactIntegers) (NewReader (bytes_of tenBytes))
           noFiles "," 44%N None false 0 "1ms").
  - lia.
  - reflexivity.
  - reflexivity.
Defined.

(** ** The engine: a failure of the schema library *)

Lemma processRows_row_error `{F : Float64} {Src : Type} (v : Validator Src) headers pre row post
    final errors n err :
  failFast v = false ->
  Forall (fun r => exists es, rowErrors v headers r = Ok es) pre ->
  rowErrors v headers row = Err err ->
  processRows v headers (pre ++ row :: post) final errors n = Err err.
Proof.
  intros Hff Hpre Hrow. revert errors n.
  induction Hpre as [|r pre [es Hr] _ IH]; intros errors n; simpl.
  - now rewrite ValidatorFacts.validateRow_rowErrors, Hrow.
  - rewrite ValidatorFacts.validateRow_rowErrors, Hr, Hff. simpl. apply IH.
Qed.

(** X22. When the schema library fails on a row for a reason other than
    the row being invalid, the run ends without results, and the error
    names the line and carries the prefix twice, once from the row
    validator and once from the engine: "schema validation error on line
    N: schema validation error: ...". The errors of the rows before are
    lost. *)
Theorem schema_failure_aborts `{F : Float64} {P Src : Type} `{API : !ParserAPI P Src}
    (v : Validator Src) (d : string) (sv : Schema.Validator) headers pre row post final
    (err : error) :
  document v = Some (headers, pre ++ row :: post, final) ->
  schemaValidator v = Some sv ->
  failFast v = false ->
  Forall (fun r => exists es, rowErrors v headers r = Ok es) pre ->
  length (Rows.Data row) = length headers ->
  Jsonschema.Validate (Schema.schema sv) (Schema.buildRow sv headers (Rows.Data row) ∅)
  = Jsonschema.Failed err ->
  Validate v d
  = Returns (Err (Errorf ("schema validation error on line " ++ itoa (Rows.LineNumber row)
                          ++ ": schema validation error: " ++ errorText err))).
Proof.
  intros D Hsv Hff Hpre Hlen Hfail.
  rewrite (ValidatorFacts.Validate_document _ _ _ _ _ D).
  rewrite (processRows_row_error v headers pre row post final [] 0%nat
             (Errorf ("schema validation error on line " ++ itoa (Rows.LineNumber row)
                      ++ ": schema validation error: " ++ errorText err)) Hff Hpre).
  - reflexivity.
  - unfold rowErrors, validateRow. rewrite Hsv. unfold Schema.ValidateRow.
    rewrite Hlen, Nat.eqb_refl. cbn [negb].
    rewrite Hfail. reflexivity.
Qed.

(** A schema on which the library fails for every row. *)
Definition brokenSchema : Schema.Validator (F := exactIntegers) :=
  {| Schema.schema :=
       {| Jsonschema.Properties := ∅;
          Jsonschema.Validate := fun _ => Jsonschema.Failed (Errorf "unsupported value") |} |}.

Lemma schema_failure_aborts_witness :
  Validate (API := Parser.api)
    (Cmd.New (NewReader (bytes_of ("a,b" ++ nl ++ "1" ++ nl ++ "2,3" ++ nl ++ "4,5" ++ nl)))
       "data.csv" "," (Some brokenSchema) false) "1ms"
  = Returns (Err (Errorf
      "schema validation error on line 3: schema validation error: unsupported value")).
Proof.
  refine (schema_failure_aborts (API := Parser.api)
            (Cmd.New (NewReader (bytes_of ("a,b" ++ nl ++ "1" ++ nl ++ "2,3" ++ nl ++ "4,5" ++ nl)))
               "data.csv" "," (Some brokenSchema) false) "1ms" brokenSchema
            ["a"; "b"] [Rows.mkRow 2 ["1"] ["a"; "b"]] (Rows.mkRow 3 ["2"; "3"] ["a"; "b"])
            [Rows.mkRow 4 ["4"; "5"] ["a"; "b"]] EOF (Errorf "unsupported value")
            _ eq_refl eq_refl _ eq_refl eq_refl).
  - vm_compute. reflexivity.
  - repeat constructor. eexists. reflexivity.
Defined.
